(** * Image annotator: editing core

    Shallow embedding of the client-side annotation core of the image
    annotator (src/app/static/js and its companion scripts): the
    coordinate transform, the zoom operations, the undo/redo history,
    the annotation Store and the gesture handlers that persist through
    [fetch], and the render pass.

    JavaScript numbers are modelled as real numbers: the arithmetic of
    the handlers is [+ - * /], [Math.sqrt], [Math.min]/[Math.max] and
    [Math.round], all of which have an exact real counterpart. *)

From Stdlib Require Import Ascii String List ZArith Reals Lra Lia Permutation.
Import ListNotations.

Local Open Scope bool_scope.
Local Open Scope R_scope.

(* ------------------------------------------------------------------ *)
(** ** Data model *)

Record point := mkPoint { px : R; py : R }.

(** [STATE.figureShape] / [data.shape]: 'circle' | 'rectangle' | 'line'. *)
Inductive shape := Circle | Rectangle | Line.

Definition shape_eqb (a b : shape) : bool :=
  match a, b with
  | Circle, Circle | Rectangle, Rectangle | Line, Line => true
  | _, _ => false
  end.

(** The endpoint fields [startX, startY, endX, endY], present on lines. *)
Record ends := mkEnds { startX : R; startY : R; endX : R; endY : R }.

(** A figure record [{type:'figure', status, x, y, shape, size, timestamp}]
    (plus the endpoint fields for a line). *)
Record figure := mkFigure {
  fstatus : string; fx : R; fy : R; fshape : shape; fsize : R;
  fends : option ends; ftimestamp : string }.

(** Store entries, discriminated as the render pass does: records with
    [type: 'polygon'], records with [type: 'figure'], and landmark
    records, which carry no [type] field. *)
Inductive annotation :=
| Landmark (status : string) (coordinates : option point) (timestamp : string)
| Polygon (status : string) (points : list point) (timestamp : string)
| Figure (f : figure).

(** [STATE.annotations]: a JS object from label name to record, kept as an
    association list in property enumeration order. *)
Definition store := list (string * annotation).

Fixpoint get (s : store) (k : string) : option annotation :=
  match s with
  | [] => None
  | (k', a) :: s' => if String.eqb k k' then Some a else get s' k
  end.

(** [obj[k] = a]: an existing property keeps its place, a new one is
    appended. *)
Fixpoint set (s : store) (k : string) (a : annotation) : store :=
  match s with
  | [] => [(k, a)]
  | (k', a') :: s' =>
      if String.eqb k k' then (k', a) :: s' else (k', a') :: set s' k a
  end.

(** [delete obj[k]]. *)
Fixpoint remove (s : store) (k : string) : store :=
  match s with
  | [] => []
  | (k', a') :: s' => if String.eqb k k' then remove s' k else (k', a') :: remove s' k
  end.

(* ------------------------------------------------------------------ *)
(** ** View state and coordinate transform (utilities.js, zoom.js) *)

Record view := mkView {
  currentZoom : R; translateX : R; translateY : R;
  naturalWidth : R; naturalHeight : R }.

(** [STATE.maxZoom], never reassigned. *)
Definition maxZoom : R := 1000.

Definition imageToDisplayCoords (v : view) (p : point) : point :=
  mkPoint (px p * currentZoom v + translateX v) (py p * currentZoom v + translateY v).

Definition displayToImageCoords (v : view) (p : point) : point :=
  mkPoint ((px p - translateX v) / currentZoom v) ((py p - translateY v) / currentZoom v).

(** [isWithinImageBounds]. *)
Definition isWithinImageBounds (v : view) (p : point) : bool :=
  if Rle_dec 0 (px p) then
    if Rle_dec 0 (py p) then
      if Rlt_dec (px p) (naturalWidth v) then
        if Rlt_dec (py p) (naturalHeight v) then true else false
      else false
    else false
  else false.

Definition with_zoom (v : view) (z tx ty : R) : view :=
  mkView z tx ty (naturalWidth v) (naturalHeight v).

Definition zoomIn (v : view) : view :=
  if Rlt_dec (currentZoom v) maxZoom
  then with_zoom v (Rmin maxZoom (currentZoom v * (3/2))) (translateX v) (translateY v)
  else v.

Definition zoomOut (v : view) : view :=
  if Rgt_dec (currentZoom v) (1/10)
  then with_zoom v (Rmax (1/10) (currentZoom v / (3/2))) (translateX v) (translateY v)
  else v.

(** [resetView]; [cw, ch] is the bounding rectangle of the container. *)
Definition resetView (v : view) (cw ch : R) : view :=
  let z := 1 in
  let scaledWidth := naturalWidth v * z in
  let scaledHeight := naturalHeight v * z in
  let tx := if Rlt_dec scaledWidth cw then (cw - scaledWidth) / 2 else 0 in
  let ty := if Rlt_dec scaledHeight ch then (ch - scaledHeight) / 2 else 0 in
  with_zoom v z tx ty.

(** [handleWheel]; [mouseX, mouseY] are container coordinates. *)
Definition handleWheel (v : view) (deltaY mouseX mouseY : R) : view :=
  let delta := if Rgt_dec deltaY 0 then 8/10 else 5/4 in
  let oldZoom := currentZoom v in
  let z := Rmin maxZoom (Rmax (1/10) (oldZoom * delta)) in
  let mouseRelX := (mouseX - translateX v) / oldZoom in
  let mouseRelY := (mouseY - translateY v) / oldZoom in
  with_zoom v z (mouseX - mouseRelX * z) (mouseY - mouseRelY * z).

(** Panning in [handleMouseMove]: the zoom is left alone. *)
Definition panBy (v : view) (dx dy : R) : view :=
  with_zoom v (currentZoom v) (translateX v + dx) (translateY v + dy).

Inductive view_op :=
| ZoomIn | ZoomOut
| Wheel (deltaY mouseX mouseY : R)
| ResetView (cw ch : R)
| Pan (dx dy : R).

Definition view_step (v : view) (o : view_op) : view :=
  match o with
  | ZoomIn => zoomIn v
  | ZoomOut => zoomOut v
  | Wheel d mx my => handleWheel v d mx my
  | ResetView cw ch => resetView v cw ch
  | Pan dx dy => panBy v dx dy
  end.

Definition run_view (ops : list view_op) (v : view) : view := fold_left view_step ops v.

(** The initial [STATE]: [currentZoom: 1, translateX: 0, translateY: 0]. *)
Definition initial_view (nw nh : R) : view := mkView 1 0 0 nw nh.

(* ------------------------------------------------------------------ *)
(** ** Undo/redo history (utilities.js) *)

Definition maxHistorySize : Z := 50.

(** The part of [STATE] the history manager reads and writes.  A history
    entry is [{annotations, timestamp}]; its timestamp is never read and
    is left out. *)
Record hstate := mkH { annotations : store; history : list store; historyIndex : Z }.

Definition saveToHistory (h : hstate) : hstate :=
  let hs :=
    if (historyIndex h <? Z.of_nat (length (history h)) - 1)%Z
    then firstn (Z.to_nat (historyIndex h + 1)) (history h)
    else history h in
  let hs' := hs ++ [annotations h] in
  if (Z.of_nat (length hs') >? maxHistorySize)%Z
  then mkH (annotations h) (tl hs') (historyIndex h)
  else mkH (annotations h) hs' (historyIndex h + 1).

(** [undo]/[redo]; [None] is the TypeError of reading [.annotations] of an
    entry that does not exist. *)
Definition undo (h : hstate) : option hstate :=
  if (0 <? historyIndex h)%Z then
    match nth_error (history h) (Z.to_nat (historyIndex h - 1)) with
    | Some s => Some (mkH s (history h) (historyIndex h - 1))
    | None => None
    end
  else Some h.

Definition redo (h : hstate) : option hstate :=
  if (historyIndex h <? Z.of_nat (length (history h)) - 1)%Z then
    match nth_error (history h) (Z.to_nat (historyIndex h + 1)) with
    | Some s => Some (mkH s (history h) (historyIndex h + 1))
    | None => None
    end
  else Some h.

(** A successful mutation: the Store is replaced, then [saveToHistory]. *)
Inductive hist_op := Mutate (s : store) | Undo | Redo.

Definition hist_step (h : hstate) (o : hist_op) : option hstate :=
  match o with
  | Mutate s => Some (saveToHistory (mkH s (history h) (historyIndex h)))
  | Undo => undo h
  | Redo => redo h
  end.

Fixpoint run_hist (ops : list hist_op) (h : hstate) : option hstate :=
  match ops with
  | [] => Some h
  | o :: ops' => match hist_step h o with Some h' => run_hist ops' h' | None => None end
  end.

(** [initializeApp]: [history: [], historyIndex: -1], then [saveToHistory()]. *)
Definition init_hist (s0 : store) : hstate := saveToHistory (mkH s0 [] (-1)).

Fixpoint undo_n (n : nat) (h : hstate) : option hstate :=
  match n with
  | O => Some h
  | S n' => match undo h with Some h' => undo_n n' h' | None => None end
  end.

(** The cursor addresses an entry, and that entry is the current Store. *)
Definition hist_inv (h : hstate) : Prop :=
  (1 <= length (history h) <= 50)%nat /\
  (0 <= historyIndex h < Z.of_nat (length (history h)))%Z /\
  nth_error (history h) (Z.to_nat (historyIndex h)) = Some (annotations h).

Definition lastn {A} (n : nat) (l : list A) : list A := skipn (length l - n) l.

(* ------------------------------------------------------------------ *)
(** ** Editor session and persistence *)

Inductive msgkind := Info | Success | Warning | Error.

(** A toast shown by [showMessage(text, type)]. *)
Definition toast := (string * msgkind)%type.

Inductive tool := TLandmark | TPolygon | TFigure.
Inductive polytool := PDraw | PEdit | PMove.

(** Polygon tool state: [activePolygonPoints], [polygonTool]. *)
Record polystate := mkPoly { activePolygonPoints : list point; polygonTool : polytool }.

(** Figure drawing state: [figureShape], [figureDrawing], [figureStartX/Y],
    [linePoints]. *)
Record figstate := mkFig {
  figureShape : shape; figureDrawing : bool; figureStartX : R; figureStartY : R;
  linePoints : list point }.

(** Figure manipulation state (drag, resize, line endpoint drag). *)
Record dragstate := mkDrag {
  selectedFigure : option string;
  figureDragging : bool; figureResizing : bool; resizeHandle : option string;
  figureDragStartX : R; figureDragStartY : R;
  figureOriginalX : R; figureOriginalY : R; figureOriginalSize : R;
  figureDragOffsetX : R; figureDragOffsetY : R;
  figureOriginalEnds : ends;
  linePointDragging : bool; linePointDraggedFigure : option string;
  linePointDraggedType : option string }.

Record world := mkWorld {
  doc : hstate; messages : list toast; selectedLabel : option string;
  isAnnotationMode : bool; currentTool : tool; wview : view;
  poly : polystate; fig : figstate; drag : dragstate }.

Definition store_of (w : world) : store := annotations (doc w).

Definition set_doc (w : world) (d : hstate) : world :=
  mkWorld d (messages w) (selectedLabel w) (isAnnotationMode w) (currentTool w)
    (wview w) (poly w) (fig w) (drag w).
Definition set_poly (w : world) (p : polystate) : world :=
  mkWorld (doc w) (messages w) (selectedLabel w) (isAnnotationMode w) (currentTool w)
    (wview w) p (fig w) (drag w).
Definition set_fig (w : world) (f : figstate) : world :=
  mkWorld (doc w) (messages w) (selectedLabel w) (isAnnotationMode w) (currentTool w)
    (wview w) (poly w) f (drag w).
Definition set_drag (w : world) (d : dragstate) : world :=
  mkWorld (doc w) (messages w) (selectedLabel w) (isAnnotationMode w) (currentTool w)
    (wview w) (poly w) (fig w) d.

Definition set_store (w : world) (s : store) : world :=
  set_doc w (mkH s (history (doc w)) (historyIndex (doc w))).

Definition showMessage (w : world) (text : string) (k : msgkind) : world :=
  mkWorld (doc w) (messages w ++ [(text, k)]) (selectedLabel w) (isAnnotationMode w)
    (currentTool w) (wview w) (poly w) (fig w) (drag w).

Definition saveToHistoryW (w : world) : world := set_doc w (saveToHistory (doc w)).

(** [STATE.selectedLabel] used as a property key or URL segment: [null]
    becomes the string "null". *)
Definition label_key (o : option string) : string :=
  match o with Some l => l | None => "null"%string end.

(** Request bodies, one per [action]. *)
Inductive body :=
| BCoordinates (x y : R)
| BOccluded
| BPolygon (points : list point)
| BFigure (x y : R) (sh : shape) (size : R) (e : option ends)
| BUpdate (x y : R) (sh : shape) (size : R) (e : option ends)
| BRemove
| BLabel (landmark_name : string).

(** [fetch('/api/<endpoint>/<patient>/<image>/<label>', POST body)]. *)
Record request := mkReq { endpoint : string; target : string; rbody : body }.

(** What [await fetch(...)] then [await response.json()] yields: a parsed
    reply with its [status] field, or a thrown error (network failure or
    a body that is not JSON), which lands in the [catch] block. *)
Inductive response := NetworkError | Reply (status : string).

(** Asynchronous code: a computation that may await [fetch] requests. *)
Inductive io (A : Type) : Type :=
| Ret (a : A)
| Fetch (rq : request) (k : response -> io A).
Arguments Ret {A} a.
Arguments Fetch {A} rq k.

Fixpoint bind {A B} (m : io A) (f : A -> io B) : io B :=
  match m with
  | Ret a => f a
  | Fetch rq k => Fetch rq (fun r => bind (k r) f)
  end.

Notation "x <- m ;; f" := (bind m (fun x => f)) (at level 61, m at next level, right associativity).

(** Run against a server that answers every request with [r]. *)
Fixpoint run {A} (r : response) (m : io A) : A :=
  match m with
  | Ret a => a
  | Fetch _ k => run r (k r)
  end.

(** The requests issued along that run. *)
Fixpoint requests {A} (r : response) (m : io A) : list request :=
  match m with
  | Ret _ => []
  | Fetch rq k => rq :: requests r (k r)
  end.

Definition is_success (st : string) : bool := String.eqb st "success".

(** The common shape of every persisting handler:
    [try { const data = await ...; if (data.status === 'success') {..} }
     catch { showMessage(failMsg, 'error') }]. *)
Definition on_reply (w : world) (onSuccess : world) (failMsg : string) (r : response) : world :=
  match r with
  | Reply st => if is_success st then onSuccess else w
  | NetworkError => showMessage w failMsg Error
  end.

(* ------------------------------------------------------------------ *)
(** ** Numeric helpers *)

(** [Math.round]: the nearest integer, halves rounded up, i.e.
    [floor(v + 0.5)]; [Int_part] is the floor function on [R]. *)
Definition js_round (v : R) : R := IZR (Int_part (v + /2)).

(** [Math.sqrt(dx * dx + dy * dy)]. *)
Definition dist (x1 y1 x2 y2 : R) : R :=
  let dx := x2 - x1 in
  let dy := y2 - y1 in
  sqrt (dx * dx + dy * dy).

(** [String.prototype.includes] for a one-character needle. *)
Fixpoint includes (c : Ascii.ascii) (s : string) : bool :=
  match s with
  | EmptyString => false
  | String c' s' => if Ascii.eqb c c' then true else includes c s'
  end.

(* ------------------------------------------------------------------ *)
(** ** Figure manipulation (figures.js, interactions) *)

Definition set_interaction (d : dragstate) (dragging resizing : bool) (h : option string) : dragstate :=
  mkDrag (selectedFigure d) dragging resizing h (figureDragStartX d) (figureDragStartY d)
    (figureOriginalX d) (figureOriginalY d) (figureOriginalSize d)
    (figureDragOffsetX d) (figureDragOffsetY d) (figureOriginalEnds d)
    (linePointDragging d) (linePointDraggedFigure d) (linePointDraggedType d).

Definition set_selectedFigure (d : dragstate) (o : option string) : dragstate :=
  mkDrag o (figureDragging d) (figureResizing d) (resizeHandle d)
    (figureDragStartX d) (figureDragStartY d)
    (figureOriginalX d) (figureOriginalY d) (figureOriginalSize d)
    (figureDragOffsetX d) (figureDragOffsetY d) (figureOriginalEnds d)
    (linePointDragging d) (linePointDraggedFigure d) (linePointDraggedType d).

Definition end_line_point_drag (d : dragstate) : dragstate :=
  mkDrag (selectedFigure d) (figureDragging d) (figureResizing d) (resizeHandle d)
    (figureDragStartX d) (figureDragStartY d)
    (figureOriginalX d) (figureOriginalY d) (figureOriginalSize d)
    (figureDragOffsetX d) (figureDragOffsetY d) (figureOriginalEnds d)
    false None None.

Definition with_center (f : figure) (x y : R) : figure :=
  mkFigure (fstatus f) x y (fshape f) (fsize f) (fends f) (ftimestamp f).

Definition with_size (f : figure) (s : R) : figure :=
  mkFigure (fstatus f) (fx f) (fy f) (fshape f) s (fends f) (ftimestamp f).

(** [updateFigurePosition]: writes [x, y] into the Store record in place.
    Only figure records are ever passed (the name comes from a rendered
    figure element); for a missing record the function returns early. *)
Definition updateFigurePosition (w : world) (name : string) (newX newY : R) : world :=
  match get (store_of w) name with
  | Some (Figure f) => set_store w (set (store_of w) name (Figure (with_center f newX newY)))
  | _ => w
  end.

(** [updateFigureSize]: [size = Math.max(10, newSize)] in place. *)
Definition updateFigureSize (w : world) (name : string) (newSize : R) : world :=
  match get (store_of w) name with
  | Some (Figure f) => set_store w (set (store_of w) name (Figure (with_size f (Rmax 10 newSize))))
  | _ => w
  end.

(** Target of a [mousedown] on a figure element. *)
Inductive fig_target := FBody | FHandle (h : string).

(** [handleFigureMouseDown]; [mouse] is the pointer in container
    coordinates and [center] the centre of the figure element's bounding
    rectangle in the same coordinates.  A record that is not in the Store
    makes the handler throw; the name always comes from a rendered figure. *)
Definition handleFigureMouseDown (w : world) (t : fig_target) (name : string) (mouse center : point) : world :=
  if isAnnotationMode w then w else
  let d := drag w in
  match get (store_of w) name with
  | Some (Figure f) =>
      match t with
      | FHandle h =>
          set_drag w (mkDrag (selectedFigure d) (figureDragging d) true (Some h)
            (px mouse) (py mouse) (figureOriginalX d) (figureOriginalY d) (fsize f)
            (figureDragOffsetX d) (figureDragOffsetY d) (figureOriginalEnds d)
            (linePointDragging d) (linePointDraggedFigure d) (linePointDraggedType d))
      | FBody =>
          set_drag w (mkDrag (Some name) true (figureResizing d) (resizeHandle d)
            (px mouse) (py mouse) (fx f) (fy f) (figureOriginalSize d)
            (px center - px mouse) (py center - py mouse) (figureOriginalEnds d)
            (linePointDragging d) (linePointDraggedFigure d) (linePointDraggedType d))
      end
  | _ => w
  end.

(** [handleLinePointMouseDown]. *)
Definition handleLinePointMouseDown (w : world) (name pointType : string) : world :=
  if isAnnotationMode w then w else
  let d := drag w in
  set_drag w (mkDrag (selectedFigure d) (figureDragging d) (figureResizing d) (resizeHandle d)
    (figureDragStartX d) (figureDragStartY d)
    (figureOriginalX d) (figureOriginalY d) (figureOriginalSize d)
    (figureDragOffsetX d) (figureDragOffsetY d) (figureOriginalEnds d)
    true (Some name) (Some pointType)).

Definition shift_ends (e : ends) (dx dy : R) : ends :=
  mkEnds (startX e + dx) (startY e + dy) (endX e + dx) (endY e + dy).

(** The figure-dragging branch of [handleMouseMove]. *)
Definition move_drag (w : world) (mouse : point) : world :=
  let d := drag w in
  match figureDragging d, selectedFigure d with
  | true, Some name =>
      let newDisplay := mkPoint (px mouse + figureDragOffsetX d) (py mouse + figureDragOffsetY d) in
      let nc := displayToImageCoords (wview w) newDisplay in
      match get (store_of w) name with
      | Some (Figure f) =>
          match fshape f with
          | Line =>
              let deltaX := px nc - figureOriginalX d in
              let deltaY := py nc - figureOriginalY d in
              let f' := mkFigure (fstatus f) (px nc) (py nc) Line (fsize f)
                          (Some (shift_ends (figureOriginalEnds d) deltaX deltaY)) (ftimestamp f) in
              set_store w (set (store_of w) name (Figure f'))
          | _ => updateFigurePosition w name (px nc) (py nc)
          end
      | _ => w
      end
  | _, _ => w
  end.

(** The resizing branch of [handleMouseMove]. *)
Definition move_resize (w : world) (mouse : point) : world :=
  let d := drag w in
  match figureResizing d, selectedFigure d, resizeHandle d with
  | true, Some name, Some h =>
      let z := currentZoom (wview w) in
      let deltaX := px mouse - figureDragStartX d in
      let deltaY := py mouse - figureDragStartY d in
      let c1 := if includes "e"%char h then deltaX / z else 0 in
      let c2 := if includes "w"%char h then c1 - deltaX / z else c1 in
      let c3 := if includes "s"%char h then c2 + deltaY / z else c2 in
      let c4 := if includes "n"%char h then c3 - deltaY / z else c3 in
      updateFigureSize w name (figureOriginalSize d + c4)
  | _, _, _ => w
  end.

(** The line-endpoint branch of [handleMouseMove]; [coords] is the pointer
    in image space.  Endpoint markers exist only on line figures, whose
    records carry the endpoint fields. *)
Definition move_line_point (w : world) (coords : point) : world :=
  let d := drag w in
  match linePointDragging d, linePointDraggedFigure d with
  | true, Some name =>
      match get (store_of w) name with
      | Some (Figure f) =>
          match fends f with
          | Some e =>
              let e1 :=
                match linePointDraggedType d with
                | Some t =>
                    if String.eqb t "start" then mkEnds (px coords) (py coords) (endX e) (endY e)
                    else if String.eqb t "end" then mkEnds (startX e) (startY e) (px coords) (py coords)
                    else e
                | None => e
                end in
              let x := (startX e1 + endX e1) / 2 in
              let y := (startY e1 + endY e1) / 2 in
              let size := dist (startX e1) (startY e1) (endX e1) (endY e1) in
              set_store w (set (store_of w) name
                (Figure (mkFigure (fstatus f) x y (fshape f) size (Some e1) (ftimestamp f))))
          | None => w
          end
      | _ => w
      end
  | _, _ => w
  end.

(** [handleMouseMove] restricted to the figure branches, in source order;
    [mouse] is in container coordinates. *)
Definition handleMouseMove (w : world) (mouse : point) : world :=
  let coords := displayToImageCoords (wview w) mouse in
  let w1 := move_drag w mouse in
  let w2 := move_resize w1 mouse in
  move_line_point w2 coords.

(** [saveFigureUpdate]. *)
Definition saveFigureUpdate (w : world) (name : string) (x y : R) (sh : shape) (size : R) : io world :=
  Fetch (mkReq "figures" name (BUpdate x y sh size None))
    (fun r => Ret (on_reply w
       (showMessage (saveToHistoryW w) ("Updated " ++ name) Success)
       "Failed to update figure" r)).

(** [completeFigureInteraction]: the flags are reset after the awaited
    call.  A selected name without a record makes the handler throw
    before the reset. *)
Definition completeFigureInteraction (w : world) : io world :=
  let d := drag w in
  let reset (w' : world) := set_drag w' (set_interaction (drag w') false false None) in
  if figureDragging d || figureResizing d then
    match selectedFigure d with
    | Some name =>
        match get (store_of w) name with
        | Some (Figure f) =>
            w' <- saveFigureUpdate w name (fx f) (fy f) (fshape f) (fsize f) ;;
            Ret (reset w')
        | _ => Ret w
        end
    | None => Ret (reset w)
    end
  else Ret (reset w).

(** [completeLinePointInteraction]; reading the record happens inside the
    [try], so a missing record is reported as a failure. *)
Definition completeLinePointInteraction (w : world) : io world :=
  let d := drag w in
  let reset (w' : world) := set_drag w' (end_line_point_drag (drag w')) in
  match linePointDragging d, linePointDraggedFigure d with
  | true, Some name =>
      match get (store_of w) name with
      | Some (Figure f) =>
          Fetch (mkReq "figures" name (BUpdate (fx f) (fy f) Line (fsize f) (fends f)))
            (fun r => Ret (reset (on_reply w
               (showMessage (saveToHistoryW w) "Line updated" Success)
               "Failed to update line" r)))
      | _ => Ret (reset (showMessage w "Failed to update line" Error))
      end
  | _, _ => Ret w
  end.

Definition set_figureDrawing (w : world) (b : bool) : world :=
  let f := fig w in
  set_fig w (mkFig (figureShape f) b (figureStartX f) (figureStartY f) (linePoints f)).

Definition set_linePoints (w : world) (l : list point) : world :=
  let f := fig w in
  set_fig w (mkFig (figureShape f) (figureDrawing f) (figureStartX f) (figureStartY f) l).

(** [completeFigureDrawing] (circle and rectangle); [coords] is the
    pointer in image space.  The success toast carries the shape and size
    in its text. *)
Definition completeFigureDrawing (w : world) (coords : point) (now : string) : io world :=
  if negb (figureDrawing (fig w)) then Ret w else
  let centerX := figureStartX (fig w) in
  let centerY := figureStartY (fig w) in
  let size := js_round (dist centerX centerY (px coords) (py coords) * 2) in
  if Rlt_dec size 10 then
    Ret (set_figureDrawing (showMessage w "Figure too small, draw larger" Warning) false)
  else
    let label := label_key (selectedLabel w) in
    let sh := figureShape (fig w) in
    let created := Figure (mkFigure "ok" centerX centerY sh size None now) in
    Fetch (mkReq "figures" label (BFigure centerX centerY sh size None))
      (fun r => Ret (set_figureDrawing (on_reply w
         (showMessage (saveToHistoryW (set_store w (set (store_of w) label created)))
            "Created figure" Success)
         "Failed to save figure" r) false)).

(** [completeLineDrawing]; the toast carries the length in its text. *)
Definition completeLineDrawing (w : world) (now : string) : io world :=
  match linePoints (fig w) with
  | [a; b] =>
      let length := dist (px a) (py a) (px b) (py b) in
      if Rlt_dec length 10 then
        Ret (set_linePoints (showMessage w "Line too short, draw longer" Warning) [])
      else
        let centerX := (px a + px b) / 2 in
        let centerY := (py a + py b) / 2 in
        let e := mkEnds (px a) (py a) (px b) (py b) in
        let label := label_key (selectedLabel w) in
        let created := Figure (mkFigure "ok" centerX centerY Line (js_round length) (Some e) now) in
        Fetch (mkReq "figures" label (BFigure centerX centerY Line (js_round length) (Some e)))
          (fun r => Ret (set_linePoints (on_reply w
             (showMessage (saveToHistoryW (set_store w (set (store_of w) label created)))
                "Created line" Success)
             "Failed to save line" r) []))
  | _ => Ret w
  end.

(** [startFigureDrawing]; [coords] in image space. *)
Definition startFigureDrawing (w : world) (coords : point) (now : string) : io world :=
  let f := fig w in
  match figureShape f with
  | Line =>
      let w1 := set_linePoints w (linePoints f ++ [coords]) in
      if Nat.eqb (length (linePoints f ++ [coords])) 2 then completeLineDrawing w1 now
      else Ret w1
  | _ =>
      Ret (set_fig w (mkFig (figureShape f) true (px coords) (py coords) (linePoints f)))
  end.

(** [annotateLandmark]. *)
Definition annotateLandmark (w : world) (coords : point) (now : string) : io world :=
  let label := label_key (selectedLabel w) in
  Fetch (mkReq "landmarks" label (BCoordinates (px coords) (py coords)))
    (fun r => Ret (on_reply w
       (showMessage (saveToHistoryW (set_store w
          (set (store_of w) label (Landmark "ok" (Some coords) now))))
          ("Annotated " ++ label) Success)
       "Failed to save annotation" r)).

(** [markOccluded]. *)
Definition markOccluded (w : world) (name now : string) : io world :=
  Fetch (mkReq "landmarks" name BOccluded)
    (fun r => Ret (on_reply w
       (showMessage (saveToHistoryW (set_store w
          (set (store_of w) name (Landmark "occluded/missing" None now))))
          (name ++ " marked as occluded") Success)
       "Failed to mark as occluded" r)).

(** [deleteSelectedFigure]. *)
Definition deleteSelectedFigure (w : world) : io world :=
  match selectedFigure (drag w) with
  | None => Ret w
  | Some name =>
      Fetch (mkReq "figures" name BRemove)
        (fun r => Ret (on_reply w
           (showMessage
              (let w1 := saveToHistoryW (set_store w (remove (store_of w) name)) in
               set_drag w1 (set_selectedFigure (drag w1) None))
              ("Deleted " ++ name) Success)
           "Failed to delete figure" r))
  end.

Definition set_polygonTool (w : world) (t : polytool) : world :=
  set_poly w (mkPoly (activePolygonPoints (poly w)) t).

(** [handlePolygonClick] in the [draw] sub-tool: append the vertex.  The
    [edit] and [move] sub-tools start vertex or whole-polygon drags in the
    transient list and are not part of this model. *)
Definition handlePolygonClick (w : world) (coords : point) : world :=
  match polygonTool (poly w) with
  | PDraw => set_poly w (mkPoly (activePolygonPoints (poly w) ++ [coords]) PDraw)
  | _ => w
  end.

(** [completePolygon]: the Store receives the transient list itself. *)
Definition completePolygon (w : world) (now : string) : io world :=
  let pts := activePolygonPoints (poly w) in
  if Nat.ltb (length pts) 3 then Ret (showMessage w "Need at least 3 points" Warning)
  else
    let label := label_key (selectedLabel w) in
    Fetch (mkReq "segments" label (BPolygon pts))
      (fun r => Ret (on_reply w
         (set_polygonTool (showMessage (saveToHistoryW (set_store w
            (set (store_of w) label (Polygon "ok" pts now)))) "Polygon saved" Success) PEdit)
         "Failed to save polygon" r)).

(** [handleMouseDown] on the container background (a [mousedown] on a
    figure stops propagation and never gets here); [mouse] is in container
    coordinates.  In panning mode it starts a pan of the view. *)
Definition handleMouseDown (w : world) (mouse : point) (now : string) : io world :=
  let w0 := set_drag w (set_selectedFigure (drag w) None) in
  if isAnnotationMode w0 then
    match selectedLabel w0 with
    | None => Ret (showMessage w0 "Please select a label first" Warning)
    | Some _ =>
        let coords := displayToImageCoords (wview w0) mouse in
        if negb (isWithinImageBounds (wview w0) coords) then
          Ret (showMessage w0 "Click within image bounds" Warning)
        else
          match currentTool w0 with
          | TLandmark => annotateLandmark w0 coords now
          | TPolygon => Ret (handlePolygonClick w0 coords)
          | TFigure => startFigureDrawing w0 coords now
          end
    end
  else Ret w0.

(** [handleMouseUp]: the completions it starts, in source order. *)
Definition handleMouseUp (w : world) (mouse : point) (now : string) : io world :=
  w1 <- (if figureDrawing (fig w) && match currentTool w with TFigure => true | _ => false end
         then completeFigureDrawing w (displayToImageCoords (wview w) mouse) now
         else Ret w) ;;
  w2 <- (if figureDragging (drag w1) || figureResizing (drag w1)
         then completeFigureInteraction w1 else Ret w1) ;;
  (if linePointDragging (drag w2) then completeLinePointInteraction w2 else Ret w2).

Inductive arrow := ArrowUp | ArrowDown | ArrowLeft | ArrowRight.

Record modifiers := mkMods { shiftKey : bool; ctrlKey : bool; metaKey : bool }.

Definition stepSize (m : modifiers) : R :=
  if shiftKey m then 10 else if ctrlKey m || metaKey m then 1/2 else 1.

Definition clamp (lo hi v : R) : R := Rmax lo (Rmin hi v).

(** The axis and sign of each arrow key, in image space (y grows downward). *)
Definition arrow_vec (dir : arrow) : R * R :=
  match dir with
  | ArrowUp => (0, -1)
  | ArrowDown => (0, 1)
  | ArrowLeft => (-1, 0)
  | ArrowRight => (1, 0)
  end.

(** [moveFigureWithArrow]; the call to [saveFigureUpdate] is not awaited,
    so the "Moved" toast is shown before the reply is handled.  The
    selected name always comes from a rendered figure. *)
Definition moveFigureWithArrow (w : world) (dir : arrow) (m : modifiers) : io world :=
  match selectedFigure (drag w) with
  | None => Ret w
  | Some name =>
      match get (store_of w) name with
      | Some (Figure f) =>
          let s := stepSize m in
          let nx0 := match dir with ArrowLeft => fx f - s | ArrowRight => fx f + s | _ => fx f end in
          let ny0 := match dir with ArrowUp => fy f - s | ArrowDown => fy f + s | _ => fy f end in
          let newX := clamp 0 (naturalWidth (wview w)) nx0 in
          let newY := clamp 0 (naturalHeight (wview w)) ny0 in
          let w1 := updateFigurePosition w name newX newY in
          let w2 := showMessage w1 "Moved" Info in
          saveFigureUpdate w2 name newX newY (fshape f) (fsize f)
      | _ => Ret w
      end
  end.

(* ------------------------------------------------------------------ *)
(** ** Render pass (rendering.js) *)

Definition COLORS : list string :=
  ["#ff0000"; "#00ff00"; "#0000ff"; "#ffff00";
   "#ff00ff"; "#00ffff"; "#ff8000"; "#8000ff";
   "#ff0080"; "#80ff00"; "#0080ff"; "#8000ff"]%string.

(** [STATE.visibilityToggles]: label name to boolean, possibly unset. *)
Definition toggles := list (string * bool).

Fixpoint vis_get (t : toggles) (k : string) : option bool :=
  match t with
  | [] => None
  | (k', b) :: t' => if String.eqb k k' then Some b else vis_get t' k
  end.

Fixpoint vis_set (t : toggles) (k : string) (b : bool) : toggles :=
  match t with
  | [] => [(k, b)]
  | (k', b') :: t' => if String.eqb k k' then (k', b) :: t' else (k', b') :: vis_set t' k b
  end.

(** [toggleVisibility]: [t[name] = !t[name]], where [!undefined] is [true]. *)
Definition toggleVisibility (t : toggles) (name : string) : toggles :=
  vis_set t name (match vis_get t name with Some b => negb b | None => true end).

(** [STATE.visibilityToggles[name] === false]. *)
Definition hidden (t : toggles) (name : string) : bool :=
  match vis_get t name with Some false => true | _ => false end.

(** One annotation drawn by the pass, with its colour. *)
Record draw := mkDraw { dname : string; dcolor : string; ddata : annotation }.

(** The body of the [Object.entries(...).forEach(([name, data], index) => ..)]
    loop: [index] counts every entry, drawn or not.  Polygons with fewer
    than 3 points and landmarks outside the image draw nothing
    ([renderPolygonShape], [renderLandmarkPoint] return early). *)
Fixpoint render_from (v : view) (t : toggles) (index : nat) (entries : store) : list draw :=
  match entries with
  | [] => []
  | (name, data) :: rest =>
      let tail := render_from v t (S index) rest in
      if hidden t name then tail else
      let color := nth (index mod length COLORS) COLORS ""%string in
      match data with
      | Polygon _ pts _ =>
          if Nat.leb 3 (length pts) then mkDraw name color data :: tail else tail
      | Figure _ => mkDraw name color data :: tail
      | Landmark st (Some c) _ =>
          if String.eqb st "ok" && isWithinImageBounds v c then mkDraw name color data :: tail
          else tail
      | Landmark _ None _ => tail
      end
  end.

Definition renderAnnotations (v : view) (t : toggles) (s : store) : list draw :=
  render_from v t 0 s.

(** The colours a render gives to one label. *)
Definition name_is (name : string) (d : draw) : bool := String.eqb (dname d) name.

Definition colors_of (name : string) (ds : list draw) : list string :=
  map dcolor (filter (name_is name) ds).

(* ------------------------------------------------------------------ *)
(** ** Gestures *)

(** Drag-to-move or resize of an existing figure: [mousedown] on the
    figure (or one of its handles), a series of [mousemove]s, [mouseup]. *)
Definition figure_gesture (w : world) (t : fig_target) (name : string) (down center : point)
    (moves : list point) (up : point) (now : string) : io world :=
  let w1 := handleFigureMouseDown w t name down center in
  let w2 := fold_left handleMouseMove moves w1 in
  handleMouseUp w2 up now.

(** A sequence of pointer-downs on the background, then [completePolygon]
    (the Enter key). *)
Fixpoint clicks (w : world) (ms : list point) (now : string) : io world :=
  match ms with
  | [] => Ret w
  | m :: ms' => w1 <- handleMouseDown w m now ;; clicks w1 ms' now
  end.

Definition polygon_gesture (w : world) (ms : list point) (now : string) : io world :=
  w1 <- clicks w ms now ;; completePolygon w1 now.

(* ------------------------------------------------------------------ *)
(** ** Sample sessions *)

Definition init_poly : polystate := mkPoly [] PDraw.
Definition init_fig (sh : shape) : figstate := mkFig sh false 0 0 [].
Definition init_drag : dragstate :=
  mkDrag None false false None 0 0 0 0 0 0 0 (mkEnds 0 0 0 0) false None None.

(** A freshly initialised session on a 200 x 200 image at zoom 1. *)
Definition session (s : store) (annotMode : bool) (t : tool) (sel : option string) (sh : shape) : world :=
  mkWorld (init_hist s) [] sel annotMode t (mkView 1 0 0 200 200) init_poly (init_fig sh) init_drag.

Definition circleF : annotation := Figure (mkFigure "ok" 10 10 Circle 20 None "t0").

(** Panning mode, figure "F" selected by label. *)
Definition drag_session : world := session [("F"%string, circleF)] false TFigure (Some "F"%string) Circle.

(** The same session after a pointer-down on the body of "F". *)
Definition dragging_session : world :=
  handleFigureMouseDown drag_session FBody "F" (mkPoint 10 10) (mkPoint 10 10).

(** Figure tool, line shape, both endpoints of a new line recorded. *)
Definition line_session (a b : point) : world :=
  set_linePoints (session [] true TFigure (Some "L"%string) Line) [a; b].

(** Figure tool, circle shape, pointer-down at (0, 0). *)
Definition circle_session : world :=
  set_fig (session [] true TFigure (Some "C"%string) Circle) (mkFig Circle true 0 0 []).

(** A stored horizontal line from (0, 0) to (10, 0). *)
Definition lineF : annotation :=
  Figure (mkFigure "ok" 5 0 Line 10 (Some (mkEnds 0 0 10 0)) "t0").

(** The session after a pointer-down on the end marker of line "L". *)
Definition endpoint_session : world :=
  handleLinePointMouseDown (session [("L"%string, lineF)] false TFigure (Some "L"%string) Line)
    "L" "end".

(* ================================================================== *)
(** * Further editor operations *)

(** ** Selection, tools and deletion (annotations module) *)

Definition set_selectedLabel (w : world) (o : option string) : world :=
  mkWorld (doc w) (messages w) o (isAnnotationMode w) (currentTool w)
    (wview w) (poly w) (fig w) (drag w).
Definition set_isAnnotationMode (w : world) (b : bool) : world :=
  mkWorld (doc w) (messages w) (selectedLabel w) b (currentTool w)
    (wview w) (poly w) (fig w) (drag w).
Definition set_currentTool (w : world) (t : tool) : world :=
  mkWorld (doc w) (messages w) (selectedLabel w) (isAnnotationMode w) t
    (wview w) (poly w) (fig w) (drag w).

(** The tool names used in [STATE.currentTool] and in the toasts. *)
Definition tool_name (t : tool) : string :=
  match t with TLandmark => "landmark" | TPolygon => "polygon" | TFigure => "figure" end.

(** [switchTool(tool)]: leaving the polygon tool drops the transient
    vertices; the selected label is always cleared. *)
Definition switchTool (w : world) (t : tool) : world :=
  let w1 := set_currentTool w t in
  let w2 := match t with
            | TPolygon => w1
            | _ => set_poly w1 (mkPoly [] (polygonTool (poly w1)))
            end in
  let w3 := set_selectedLabel w2 None in
  showMessage w3 ("Switched to " ++ tool_name t ++ " mode") Info.

(** [selectLabel(name)]: in the polygon tool a stored polygon is loaded
    (a deep copy) as the transient vertex list, in the [edit] sub-tool;
    annotation mode is switched on. *)
Definition selectLabel (w : world) (name : string) : world :=
  let w1 := set_selectedLabel w (Some name) in
  let w2 := match get (store_of w1) name, currentTool w1 with
            | Some (Polygon _ pts _), TPolygon =>
                set_polygonTool (set_poly w1 (mkPoly pts (polygonTool (poly w1)))) PEdit
            | _, _ => w1
            end in
  let w3 := if isAnnotationMode w2 then w2 else set_isAnnotationMode w2 true in
  showMessage w3 ("Selected: " ++ name ++ " (" ++ tool_name (currentTool w3) ++ " mode)") Info.

(** [deleteAnnotation(name)]; [confirmed] is the answer to the [confirm]
    dialog.  The endpoint follows the stored record's type. *)
Definition deleteAnnotation (w : world) (confirmed : bool) (name : string) : io world :=
  if negb confirmed then Ret w else
  let endpoint := match get (store_of w) name with
                  | Some (Polygon _ _ _) => "segments"%string
                  | Some (Figure _) => "figures"%string
                  | _ => "landmarks"%string
                  end in
  let removed := set_store w (remove (store_of w) name) in
  let deselected := match selectedLabel removed with
                    | Some l => if String.eqb l name then set_selectedLabel removed None else removed
                    | None => removed
                    end in
  Fetch (mkReq endpoint name BRemove)
    (fun r => Ret (on_reply w
       (showMessage (saveToHistoryW deselected) ("Deleted annotation for " ++ name) Success)
       "Failed to delete annotation" r)).

(** [handleLineMouseDown] on a line figure element; [interactive] is
    whether the element carries the [interactive] class, which
    [renderFigure] and [updateFigureInteractivity] set from the mode, the
    tool and the selected label.  In panning mode, on an interactive line,
    the drag of the whole line starts from its centre and both endpoints.
    Line elements are rendered only for line figures, which carry their
    endpoints; other records give [None]. *)
Definition handleLineMouseDown (w : world) (interactive : bool) (name : string) (mouse center : point) : option world :=
  if isAnnotationMode w then Some w else
  if negb interactive then Some w else
  let d := drag w in
  match get (store_of w) name with
  | Some (Figure f) =>
      match fends f with
      | Some e =>
          Some (set_drag w (mkDrag (Some name) true (figureResizing d) (resizeHandle d)
            (px mouse) (py mouse) (fx f) (fy f) (figureOriginalSize d)
            (px center - px mouse) (py center - py mouse) e
            (linePointDragging d) (linePointDraggedFigure d) (linePointDraggedType d)))
      | None => None
      end
  | _ => None
  end.

(** A [mousedown] on the body of a line element: [renderFigure] registers
    [handleFigureMouseDown] and then, for lines, [handleLineMouseDown] on
    the same element, so both run, in that order. *)
Definition lineElementMouseDown (w : world) (interactive : bool) (name : string) (mouse center : point) : option world :=
  handleLineMouseDown (handleFigureMouseDown w FBody name mouse center) interactive name mouse center.

(* ------------------------------------------------------------------ *)
(** ** Label list (renderLabelList) *)

Definition status_of (a : annotation) : string :=
  match a with Landmark st _ _ => st | Polygon st _ _ => st | Figure f => fstatus f end.

(** The status badge of a label row. *)
Definition statusBadge (a : option annotation) : option string :=
  match a with
  | None => None
  | Some d =>
      if String.eqb (status_of d) "ok" then Some "Marked"%string
      else if String.eqb (status_of d) "occluded/missing" then Some "Occluded"%string
      else None
  end.

(** The type badge of a label row. *)
Definition typeBadge (a : option annotation) : option string :=
  match a with
  | None => None
  | Some (Polygon _ _ _) => Some "Polygon"%string
  | Some (Figure _) => Some "Figure"%string
  | Some (Landmark _ _ _) => Some "Point"%string
  end.

(** Whether the row offers the Occluded button. *)
Definition occludedButton (a : option annotation) : bool :=
  match a with Some (Polygon _ _ _) | Some (Figure _) => false | _ => true end.

(* ------------------------------------------------------------------ *)
(** ** Label list initialisation (initialization.js) *)

Record label := mkLabel {
  lname : string; in_use : bool; annotated_count : Z; total_count : Z; ltype : string }.

(** A JS [Map] keyed by label name: [set] overwrites in place or appends. *)
Fixpoint label_set (m : list (string * label)) (k : string) (v : label) : list (string * label) :=
  match m with
  | [] => [(k, v)]
  | (k', v') :: m' => if String.eqb k k' then (k', v) :: m' else (k', v') :: label_set m' k v
  end.

Definition label_has (m : list (string * label)) (k : string) : bool :=
  existsb (fun kv => String.eqb (fst kv) k) m.

(** [data.type || 'landmark']. *)
Definition annotation_type (a : annotation) : string :=
  match a with Polygon _ _ _ => "polygon" | Figure _ => "figure" | Landmark _ _ _ => "landmark" end.

(** The body of the [Object.entries(STATE.annotations).forEach] loop. *)
Definition add_annotation_label (m : list (string * label)) (e : string * annotation) :=
  let (name, data) := e in
  if label_has m name then m
  else label_set m name (mkLabel name true 1 1 (annotation_type data)).

(** A label map whose keys are its labels' names, each key once. *)
Definition keyed (m : list (string * label)) : Prop :=
  (forall kv, In kv m -> lname (snd kv) = fst kv) /\ NoDup (map fst m).

(** [loadFigureLabelsFromAnnotations]; [sortLabels] is the
    [localeCompare] sort of the label list. *)
Definition loadFigureLabelsFromAnnotations (sortLabels : list label -> list label)
    (landmarks segments figures : list label) (s : store) : list label :=
  let m1 := fold_left (fun m l => label_set m (lname l) l) (landmarks ++ segments ++ figures) [] in
  let m2 := fold_left add_annotation_label s m1 in
  sortLabels (map snd m2).

Definition initializeVisibilityToggles (labels : list label) (t : toggles) : toggles :=
  fold_left (fun t l => vis_set t (lname l) true) labels t.

(* ------------------------------------------------------------------ *)
(** ** Label creation (annotations module) *)

(** The double quote character. *)
Definition dq : string := String "034"%char EmptyString.

(** [createNewLabel]; [name] is [DOM.labelInput.value.trim()] and
    [sortLabels] the [localeCompare] sort of the label list.  The request
    goes to [/api/landmarks] itself, with no label in the path (an empty
    target).  Clearing the input and [renderLabelList] touch only the DOM.
    The result is the world, [STATE.allLabels] and
    [STATE.visibilityToggles]. *)
Definition createNewLabel (sortLabels : list label -> list label) (w : world)
    (allLabels : list label) (vis : toggles) (name : string) : io (world * list label * toggles) :=
  if String.eqb name "" then Ret (showMessage w "Please enter a label name" Warning, allLabels, vis) else
  if existsb (fun l => String.eqb (lname l) name) allLabels
  then Ret (showMessage w "Label already exists" Warning, allLabels, vis) else
  Fetch (mkReq "landmarks" "" (BLabel name))
    (fun r => Ret (match r with
       | Reply st =>
           if is_success st then
             let allLabels' := sortLabels (allLabels ++ [mkLabel name false 0 0 "generic"]) in
             let vis' := vis_set vis name true in
             (showMessage (selectLabel w name) ("Label " ++ dq ++ name ++ dq ++ " created") Success,
              allLabels', vis')
           else (w, allLabels, vis)
       | NetworkError => (showMessage w "Failed to create label" Error, allLabels, vis)
       end)).

(* ------------------------------------------------------------------ *)
(** ** Persisting handlers *)

(** The gesture completions and one-shot actions that persist. *)
Inductive completion :=
| CFigureDrawing (coords : point) (now : string)
| CLineDrawing (now : string)
| CPolygon (now : string)
| CLandmark (coords : point) (now : string)
| COccluded (name now : string)
| CFigureInteraction
| CLinePointInteraction
| CSaveFigureUpdate (name : string) (x y : R) (sh : shape) (size : R)
| CDeleteFigure
| CDeleteAnnotation (confirmed : bool) (name : string)
| CCreateLabel (sortLabels : list label -> list label) (allLabels : list label)
    (vis : toggles) (name : string).

(** The world each one leaves; the label list and the visibility toggles
    that [createNewLabel] also returns are dropped. *)
Definition complete (c : completion) (w : world) : io world :=
  match c with
  | CFigureDrawing coords now => completeFigureDrawing w coords now
  | CLineDrawing now => completeLineDrawing w now
  | CPolygon now => completePolygon w now
  | CLandmark coords now => annotateLandmark w coords now
  | COccluded name now => markOccluded w name now
  | CFigureInteraction => completeFigureInteraction w
  | CLinePointInteraction => completeLinePointInteraction w
  | CSaveFigureUpdate name x y sh size => saveFigureUpdate w name x y sh size
  | CDeleteFigure => deleteSelectedFigure w
  | CDeleteAnnotation confirmed name => deleteAnnotation w confirmed name
  | CCreateLabel sortLabels allLabels vis name =>
      p <- createNewLabel sortLabels w allLabels vis name ;; Ret (fst (fst p))
  end.

Definition failed (r : response) : Prop :=
  r = NetworkError \/ exists st, r = Reply st /\ st <> "success"%string.

Definition has_error (l : list toast) : Prop := exists text, In (text, Error) l.

(* ------------------------------------------------------------------ *)
(** ** Polygon editor (polygons.js) *)

Module PolygonEditor.

(** The polygon part of [STATE] the editor reads and writes. *)
Record pstate := mkPS {
  activePolygonPoints : list point; polygonTool : polytool;
  selectedPointIndex : Z; polygonDragging : bool; polygonMoveStart : option point;
  currentZoom : R }.

(** [Math.sqrt(Math.pow(dx, 2) + Math.pow(dy, 2))]. *)
Definition pdist (p c : point) : R := sqrt ((px p - px c) ^ 2 + (py p - py c) ^ 2).

(** The [forEach] of [findNearestPointIndex]; [None] is [Infinity]. *)
Fixpoint nearest_from (threshold : R) (c : point) (pts : list point) (index : nat)
    (best : Z * option R) : Z * option R :=
  match pts with
  | [] => best
  | p :: rest =>
      let distance := pdist p c in
      let closer := match snd best with
                    | None => true
                    | Some b => if Rlt_dec distance b then true else false
                    end in
      let best' := if Rlt_dec distance threshold
                   then if closer then (Z.of_nat index, Some distance) else best
                   else best in
      nearest_from threshold c rest (S index) best'
  end.

Definition findNearestPointIndex (s : pstate) (c : point) : Z :=
  fst (nearest_from (10 / currentZoom s) c (activePolygonPoints s) 0 ((-1)%Z, None)).

(** [arr[i] = x] for an index inside the array. *)
Definition list_replace (l : list point) (i : nat) (x : point) : list point :=
  firstn i l ++ x :: skipn (S i) l.

Definition handlePolygonClick (s : pstate) (c : point) : pstate :=
  match polygonTool s with
  | PDraw =>
      mkPS (activePolygonPoints s ++ [c]) PDraw (selectedPointIndex s) (polygonDragging s)
        (polygonMoveStart s) (currentZoom s)
  | PEdit =>
      let i := findNearestPointIndex s c in
      mkPS (activePolygonPoints s) PEdit i
        (if (i =? -1)%Z then polygonDragging s else true) (polygonMoveStart s) (currentZoom s)
  | PMove =>
      mkPS (activePolygonPoints s) PMove (selectedPointIndex s) true (Some c) (currentZoom s)
  end.

(** [handlePolygonDrag]; [None] is a write outside the vertex array
    (never reached: the index comes from [findNearestPointIndex]). *)
Definition handlePolygonDrag (s : pstate) (c : point) : option pstate :=
  let pts := activePolygonPoints s in
  let i := selectedPointIndex s in
  if match polygonTool s with PEdit => true | _ => false end && negb (i =? -1)%Z then
    if (0 <=? i)%Z && (i <? Z.of_nat (length pts))%Z then
      Some (mkPS (list_replace pts (Z.to_nat i) c) (polygonTool s) i (polygonDragging s)
              (polygonMoveStart s) (currentZoom s))
    else None
  else if match polygonTool s with PMove => true | _ => false end && polygonDragging s then
    match polygonMoveStart s with
    | Some st =>
        let deltaX := px c - px st in
        let deltaY := py c - py st in
        Some (mkPS (map (fun p => mkPoint (px p + deltaX) (py p + deltaY)) pts) (polygonTool s) i
                (polygonDragging s) (Some c) (currentZoom s))
    | None => Some s
    end
  else Some s.

(** The polygon branch of [handleMouseMove] (polygon tool active). *)
Definition pointer_move (s : pstate) (c : point) : option pstate :=
  if polygonDragging s then handlePolygonDrag s c else Some s.

(** The polygon part of [handleMouseUp]. *)
Definition pointer_up (s : pstate) : pstate :=
  mkPS (activePolygonPoints s) (polygonTool s) (-1) false (polygonMoveStart s) (currentZoom s).

Fixpoint pointer_moves (s : pstate) (ms : list point) : option pstate :=
  match ms with
  | [] => Some s
  | m :: ms' => match pointer_move s m with Some s' => pointer_moves s' ms' | None => None end
  end.

(** A press, a sequence of moves and a release. *)
Definition press_drag_release (s : pstate) (c : point) (ms : list point) : option pstate :=
  match pointer_moves (handlePolygonClick s c) ms with
  | Some s' => Some (pointer_up s')
  | None => None
  end.

(** The segments [renderActivePolygon] draws: vertex [i] to vertex
    [(i + 1) % n], when [i < n - 1 || n >= 3]. *)
Definition activePolygonLines (pts : list point) : list (point * point) :=
  match pts with
  | [] => []
  | p0 :: _ =>
      let n := length pts in
      flat_map (fun i => if Nat.ltb i (n - 1) || Nat.leb 3 n
                         then [(nth i pts p0, nth ((i + 1) mod n) pts p0)] else [])
        (seq 0 n)
  end.

(** What the accumulator of [findNearestPointIndex] records about the
    vertices already visited. *)
Definition nearest_inv (th : R) (c : point) (pre : list point) (best : Z * option R) : Prop :=
  (best = ((-1)%Z, None) /\ forall p, In p pre -> th <= pdist p c) \/
  (exists i p, best = (Z.of_nat i, Some (pdist p c)) /\ nth_error pre i = Some p /\
     pdist p c < th /\
     (forall j q, nth_error pre j = Some q -> (j < i)%nat -> pdist p c < pdist q c) /\
     (forall j q, nth_error pre j = Some q -> pdist p c <= pdist q c)).

End PolygonEditor.

(* ================================================================== *)
(** * Properties *)

(* ------------------------------------------------------------------ *)
(** ** Coordinate transform *)

(** Claim C2: for zoom > 0 and any pan offsets, converting an image point
    to display coordinates and back yields the same point, exactly. *)
Theorem display_image_roundtrip :
  forall (v : view) (p : point), 0 < currentZoom v ->
  displayToImageCoords v (imageToDisplayCoords v p) = p.
Proof.
  intros [z tx ty nw nh] [x y] Hz; simpl in Hz.
  unfold displayToImageCoords, imageToDisplayCoords; simpl.
  f_equal; field; lra.
Qed.

Lemma display_image_roundtrip_witness :
  0 < currentZoom (mkView (5/2) 3 (-7) 200 200) /\
  displayToImageCoords (mkView (5/2) 3 (-7) 200 200)
    (imageToDisplayCoords (mkView (5/2) 3 (-7) 200 200) (mkPoint 100 50)) = mkPoint 100 50.
Proof.
  split.
  - simpl; lra.
  - apply display_image_roundtrip; simpl; lra.
Defined.

(* ------------------------------------------------------------------ *)
(** ** Zoom bounds *)

Definition zoom_ok (v : view) : Prop := 1/10 <= currentZoom v <= maxZoom.

Lemma zoom_ok_step : forall v o, zoom_ok v -> zoom_ok (view_step v o).
Proof.
  intros [z tx ty nw nh] o; unfold zoom_ok, maxZoom; simpl; intros Hz.
  destruct o as [| | d mx my | cw ch | dx dy]; simpl.
  - unfold zoomIn, maxZoom; simpl. destruct (Rlt_dec z 1000); simpl; [|lra].
    unfold Rmin; destruct (Rle_dec 1000 (z * (3/2))); lra.
  - unfold zoomOut, maxZoom; simpl. destruct (Rgt_dec z (1/10)); simpl; [|lra].
    unfold Rmax; destruct (Rle_dec (1/10) (z / (3/2))); [|lra].
    split; [lra|]. unfold Rdiv; lra.
  - unfold handleWheel, maxZoom; simpl.
    unfold Rmin, Rmax.
    destruct (Rle_dec (1/10) (z * (if Rgt_dec d 0 then 8/10 else 5/4)));
    destruct (Rle_dec 1000 _); lra.
  - unfold resetView; simpl; lra.
  - unfold panBy; simpl; lra.
Qed.

Lemma zoom_ok_run : forall ops v, zoom_ok v -> zoom_ok (run_view ops v).
Proof.
  induction ops as [|o ops IH]; intros v Hv; simpl; [exact Hv|].
  apply IH, zoom_ok_step, Hv.
Qed.

(** Claim C9: from the initial state, after any sequence of zoomIn,
    zoomOut, handleWheel, resetView (and panning) the zoom stays in
    [0.1, 1000]; in particular it is never zero. *)
Theorem zoom_stays_in_range :
  forall (nw nh : R) (ops : list view_op),
  1/10 <= currentZoom (run_view ops (initial_view nw nh)) <= 1000 /\
  currentZoom (run_view ops (initial_view nw nh)) <> 0.
Proof.
  intros nw nh ops.
  assert (H : zoom_ok (run_view ops (initial_view nw nh))).
  { apply zoom_ok_run. unfold zoom_ok, maxZoom; simpl; lra. }
  unfold zoom_ok, maxZoom in H. split; [exact H | lra].
Qed.

(* ------------------------------------------------------------------ *)
(** ** History *)

Lemma save_newest :
  forall h, (0 <= historyIndex h < Z.of_nat (length (history h)))%Z ->
  (length (history h) <= 50)%nat ->
  let h' := saveToHistory h in
  hist_inv h' /\ annotations h' = annotations h /\
  historyIndex h' = (Z.of_nat (length (history h')) - 1)%Z.
Proof.
  intros [a hs i] Hi Hl; simpl in *.
  unfold saveToHistory, maxHistorySize, hist_inv; simpl.
  destruct (Z.ltb_spec i (Z.of_nat (length hs) - 1)) as [Hlt | Hge].
  - assert (Hlen : length (firstn (Z.to_nat (i + 1)) hs) = Z.to_nat (i + 1)).
    { rewrite length_firstn. lia. }
    rewrite Z.gtb_ltb.
    destruct (Z.ltb_spec 50 (Z.of_nat (length (firstn (Z.to_nat (i + 1)) hs ++ [a])))) as [Hb | Hb];
      rewrite length_app in Hb; simpl in Hb; [lia|].
    simpl. rewrite length_app, Hlen; simpl.
    split; [|split; [reflexivity | lia]].
    split; [lia|]. split; [lia|].
    rewrite nth_error_app2 by lia. rewrite Hlen.
    replace (Z.to_nat (i + 1) - Z.to_nat (i + 1))%nat with 0%nat by lia. reflexivity.
  - rewrite Z.gtb_ltb.
    destruct (Z.ltb_spec 50 (Z.of_nat (length (hs ++ [a])))) as [Hb | Hb];
      rewrite length_app in Hb; simpl in Hb.
    + (* the oldest entry is evicted; the cursor keeps its value *)
      assert (HL : length hs = 50%nat) by lia.
      destruct hs as [|s0 hs']; simpl in HL; [lia|].
      simpl. rewrite length_app; simpl.
      split; [|split; [reflexivity | lia]].
      split; [lia|]. split; [lia|].
      rewrite nth_error_app2 by lia.
      replace (Z.to_nat i - length hs')%nat with 0%nat by lia. reflexivity.
    + simpl. rewrite length_app; simpl.
      split; [|split; [reflexivity | lia]].
      split; [lia|]. split; [lia|].
      rewrite nth_error_app2 by lia.
      replace (Z.to_nat (i + 1) - length hs)%nat with 0%nat by lia. reflexivity.
Qed.

Lemma save_inv : forall h s, hist_inv h -> hist_inv (saveToHistory (mkH s (history h) (historyIndex h))).
Proof.
  intros h s (Hl & Hi & _).
  apply (save_newest (mkH s (history h) (historyIndex h))); simpl; lia.
Qed.

Lemma undo_inv : forall h, hist_inv h ->
  exists h', undo h = Some h' /\ hist_inv h' /\ history h' = history h.
Proof.
  intros [a hs i] (Hl & Hi & Hn); simpl in *.
  unfold undo; simpl.
  destruct (Z.ltb_spec 0 i) as [Hp | Hp].
  - destruct (nth_error hs (Z.to_nat (i - 1))) as [s|] eqn:E.
    + eexists; split; [reflexivity|]. split; [|reflexivity].
      unfold hist_inv; simpl. split; [lia|]. split; [lia|exact E].
    + apply nth_error_None in E. lia.
  - exists (mkH a hs i). split; [reflexivity|]. split; [|reflexivity].
    unfold hist_inv; simpl; auto.
Qed.

Lemma redo_inv : forall h, hist_inv h ->
  exists h', redo h = Some h' /\ hist_inv h' /\ history h' = history h.
Proof.
  intros [a hs i] (Hl & Hi & Hn); simpl in *.
  unfold redo; simpl.
  destruct (Z.ltb_spec i (Z.of_nat (length hs) - 1)) as [Hp | Hp].
  - destruct (nth_error hs (Z.to_nat (i + 1))) as [s|] eqn:E.
    + eexists; split; [reflexivity|]. split; [|reflexivity].
      unfold hist_inv; simpl. split; [lia|]. split; [lia|exact E].
    + apply nth_error_None in E. lia.
  - exists (mkH a hs i). split; [reflexivity|]. split; [|reflexivity].
    unfold hist_inv; simpl; auto.
Qed.

Lemma init_hist_inv : forall s0, hist_inv (init_hist s0).
Proof.
  intros s0. unfold init_hist, saveToHistory, hist_inv; simpl.
  split; [lia|]. split; [lia|reflexivity].
Qed.

Lemma run_hist_inv : forall ops h, hist_inv h ->
  exists h', run_hist ops h = Some h' /\ hist_inv h'.
Proof.
  induction ops as [|o ops IH]; intros h Hh; simpl.
  - exists h; auto.
  - destruct o as [s| |]; simpl.
    + apply IH, save_inv, Hh.
    + destruct (undo_inv h Hh) as (h1 & -> & H1 & _). apply IH, H1.
    + destruct (redo_inv h Hh) as (h1 & -> & H1 & _). apply IH, H1.
Qed.

Lemma undo_n_oldest : forall n h, hist_inv h -> historyIndex h = Z.of_nat n ->
  exists h0, undo_n n h = Some h0 /\ hist_inv h0 /\ historyIndex h0 = 0%Z /\
             history h0 = history h.
Proof.
  induction n as [|n IH]; intros h Hh Hi; simpl.
  - exists h. split; [reflexivity|]. split; [exact Hh|]. split; [lia|reflexivity].
  - destruct (undo_inv h Hh) as (h1 & E & H1 & Hs).
    rewrite E.
    assert (Hi1 : historyIndex h1 = Z.of_nat n).
    { destruct h as [a hs i]; cbn [historyIndex history] in Hi |- *.
      rewrite Nat2Z.inj_succ in Hi.
      unfold undo in E; cbn [historyIndex history] in E.
      destruct (Z.ltb_spec 0 i); [|lia].
      destruct (nth_error hs (Z.to_nat (i - 1))); inversion E; subst; simpl; lia. }
    destruct (IH h1 H1 Hi1) as (h0 & E0 & H0 & Hi0 & Hs0).
    exists h0. split; [exact E0|]. split; [exact H0|]. split; [exact Hi0|congruence].
Qed.

Lemma undo_at_zero : forall h, historyIndex h = 0%Z -> undo h = Some h.
Proof.
  intros [a hs i] Hi; simpl in Hi; subst. reflexivity.
Qed.

Lemma lastn_snoc : forall {A} (l : list A) (x : A),
  lastn 50 (l ++ [x]) =
  if (Z.of_nat (length (lastn 50 l ++ [x])) >? 50)%Z then tl (lastn 50 l ++ [x])
  else lastn 50 l ++ [x].
Proof.
  intros A l x. unfold lastn.
  rewrite !length_app, !length_skipn; simpl.
  rewrite Z.gtb_ltb.
  destruct (Z.ltb_spec 50 (Z.of_nat (length l - (length l - 50) + 1))) as [Hb | Hb].
  - rewrite skipn_app.
    replace (length l + 1 - 50 - length l)%nat with 0%nat by lia. simpl.
    replace (length l + 1 - 50)%nat with (S (length l - 50)) by lia.
    assert (Hne : (length l - 50 < length l)%nat) by lia.
    clear Hb. revert Hne. generalize (length l - 50)%nat as k.
    clear. induction l as [|y l IH]; intros k Hk; simpl in *; [lia|].
    destruct k as [|k]; simpl; [reflexivity|].
    apply IH. lia.
  - replace (length l + 1 - 50)%nat with 0%nat by lia.
    replace (length l - 50)%nat with 0%nat by lia. reflexivity.
Qed.

Lemma mutations_lastn : forall ss L h,
  history h = lastn 50 L -> L <> [] ->
  historyIndex h = (Z.of_nat (length (history h)) - 1)%Z ->
  (length (history h) <= 50)%nat ->
  exists h', run_hist (map Mutate ss) h = Some h' /\
    history h' = lastn 50 (L ++ ss) /\
    historyIndex h' = (Z.of_nat (length (history h')) - 1)%Z.
Proof.
  induction ss as [|s ss IH]; intros L h HL Hne Hi Hlen; simpl.
  - exists h. rewrite app_nil_r. auto.
  - set (h1 := saveToHistory (mkH s (history h) (historyIndex h))).
    assert (Hl1 : (1 <= length (history h))%nat).
    { rewrite HL. unfold lastn. rewrite length_skipn. destruct L; [congruence|cbn [length]; lia]. }
    destruct (save_newest (mkH s (history h) (historyIndex h))) as ((Hl2 & _ & _) & _ & Hi2);
      simpl; try lia.
    fold h1 in Hl2, Hi2.
    assert (Hh1 : history h1 = lastn 50 (L ++ [s])).
    { unfold h1, saveToHistory; simpl.
      destruct (Z.ltb_spec (historyIndex h) (Z.of_nat (length (history h)) - 1)); [lia|].
      rewrite lastn_snoc, <- HL. unfold maxHistorySize.
      destruct (_ >? 50)%Z; reflexivity. }
    destruct (IH (L ++ [s]) h1 Hh1) as (h' & E & Hh' & Hi').
    + destruct L; discriminate.
    + exact Hi2.
    + lia.
    + exists h'. rewrite <- app_assoc in Hh'. auto.
Qed.

(** Claim C3: the history never holds more than 50 snapshots, its cursor
    stays in [0, history.length - 1] and addresses the current Store,
    undo at cursor 0 is a no-op, repeated undo reaches the oldest retained
    snapshot and stops there; after 60 mutations from the initial
    snapshot the 50 newest snapshots are kept, oldest evicted first, with
    the cursor on the newest. *)
Theorem history_bounds :
  (forall (s0 : store) (ops : list hist_op),
     exists h, run_hist ops (init_hist s0) = Some h /\
       (length (history h) <= 50)%nat /\
       (0 <= historyIndex h <= Z.of_nat (length (history h)) - 1)%Z /\
       nth_error (history h) (Z.to_nat (historyIndex h)) = Some (annotations h) /\
       (historyIndex h = 0%Z -> undo h = Some h) /\
       exists h0, undo_n (Z.to_nat (historyIndex h)) h = Some h0 /\
         historyIndex h0 = 0%Z /\ history h0 = history h /\
         nth_error (history h) 0 = Some (annotations h0) /\
         undo h0 = Some h0) /\
  (forall (s0 : store) (ss : list store), length ss = 60%nat ->
     exists h, run_hist (map Mutate ss) (init_hist s0) = Some h /\
       length (history h) = 50%nat /\
       history h = skipn 11 (s0 :: ss) /\
       historyIndex h = 49%Z /\
       nth_error (history h) (Z.to_nat (historyIndex h)) = Some (annotations h)).
Proof.
  split.
  - intros s0 ops.
    destruct (run_hist_inv ops (init_hist s0) (init_hist_inv s0)) as (h & E & (Hl & Hi & Hn)).
    exists h. split; [exact E|]. split; [lia|]. split; [lia|]. split; [exact Hn|].
    split; [apply undo_at_zero|].
    destruct (undo_n_oldest (Z.to_nat (historyIndex h)) h) as (h0 & E0 & (H0l & H0i & H0n) & Hi0 & Hs0);
      [split; [exact Hl | split; [exact Hi | exact Hn]] | lia |].
    exists h0. split; [exact E0|]. split; [exact Hi0|]. split; [exact Hs0|].
    split; [rewrite <- Hs0, <- H0n, Hi0; reflexivity|].
    apply undo_at_zero, Hi0.
  - intros s0 ss Hlen.
    destruct (mutations_lastn ss [s0] (init_hist s0)) as (h & E & Hh & Hi);
      [reflexivity | discriminate | reflexivity | simpl; lia |].
    assert (HI : hist_inv h).
    { destruct (run_hist_inv (map Mutate ss) (init_hist s0) (init_hist_inv s0)) as (h' & E' & H').
      rewrite E in E'. inversion E'; subst. exact H'. }
    destruct HI as (_ & _ & Hn).
    assert (Hl : length (history h) = 50%nat).
    { rewrite Hh. unfold lastn. rewrite length_skipn, length_app, Hlen. reflexivity. }
    exists h. split; [exact E|]. split; [exact Hl|].
    split; [rewrite Hh; unfold lastn; rewrite length_app, Hlen; reflexivity|].
    split; [rewrite Hi, Hl; reflexivity | exact Hn].
Qed.

Lemma history_bounds_witness :
  length (repeat ([] : store) 60) = 60%nat /\
  exists h, run_hist (map Mutate (repeat ([] : store) 60)) (init_hist []) = Some h /\
    length (history h) = 50%nat.
Proof.
  split; [reflexivity|].
  destruct (proj2 history_bounds [] (repeat ([] : store) 60) ltac:(reflexivity))
    as (h & E & L & _).
  exists h. split; [exact E | exact L].
Defined.

(* ------------------------------------------------------------------ *)
(** ** Render colours *)

Lemma render_skip_other : forall v t i n data rest name, n <> name ->
  filter (name_is name) (render_from v t i ((n, data) :: rest)) =
  filter (name_is name) (render_from v t (S i) rest).
Proof.
  intros v t i n data rest name Hn. cbn [render_from].
  assert (Hf : forall c tl, filter (name_is name) (mkDraw n c data :: tl) = filter (name_is name) tl).
  { intros c tl. cbn [filter]. unfold name_is at 1; cbn [dname].
    apply String.eqb_neq in Hn. rewrite Hn. reflexivity. }
  destruct (hidden t n); [reflexivity|].
  destruct data as [st [c|] ts | st pts ts | f].
  - destruct (String.eqb st "ok" && isWithinImageBounds v c); [apply Hf | reflexivity].
  - reflexivity.
  - destruct (Nat.leb 3 (length pts)); [apply Hf | reflexivity].
  - apply Hf.
Qed.

Lemma render_name_depends_on_own_toggle : forall v s t t' i name,
  hidden t name = hidden t' name ->
  filter (name_is name) (render_from v t i s) = filter (name_is name) (render_from v t' i s).
Proof.
  intros v s; induction s as [|[n data] rest IH]; intros t t' i name Hh; [reflexivity|].
  destruct (String.eqb_spec n name) as [-> | Hn].
  - pose proof (fun j => IH t t' j name Hh) as IH'.
    cbn [render_from]. rewrite Hh.
    destruct (hidden t' name); [apply IH'|].
    destruct data as [st [c|] ts | st pts ts | f].
    + destruct (String.eqb st "ok" && isWithinImageBounds v c);
        [cbn [filter]; rewrite IH'; reflexivity | apply IH'].
    + apply IH'.
    + destruct (Nat.leb 3 (length pts));
        [cbn [filter]; rewrite IH'; reflexivity | apply IH'].
    + cbn [filter]; rewrite IH'; reflexivity.
  - rewrite !render_skip_other by exact Hn. apply IH, Hh.
Qed.

Lemma render_hidden_nothing : forall v s t i name, hidden t name = true ->
  filter (name_is name) (render_from v t i s) = [].
Proof.
  intros v s; induction s as [|[n data] rest IH]; intros t i name Hh; [reflexivity|].
  destruct (String.eqb_spec n name) as [-> | Hn].
  - cbn [render_from]. rewrite Hh. apply IH, Hh.
  - rewrite render_skip_other by exact Hn. apply IH, Hh.
Qed.

Lemma render_position : forall v t s i d, In d (render_from v t i s) ->
  exists k, nth_error s k = Some (dname d, ddata d) /\
            dcolor d = nth ((i + k) mod length COLORS) COLORS ""%string.
Proof.
  intros v t s; induction s as [|[n data] rest IH]; intros i d Hin; [destruct Hin|].
  assert (Htail : In d (render_from v t (S i) rest) ->
    exists k, nth_error ((n, data) :: rest) k = Some (dname d, ddata d) /\
              dcolor d = nth ((i + k) mod length COLORS) COLORS ""%string).
  { intros H. destruct (IH (S i) d H) as (k & Hk & Hc).
    exists (S k). split; [exact Hk|]. rewrite Hc. f_equal. f_equal. lia. }
  assert (Hhead : forall c tl, In d (mkDraw n c data :: tl) ->
    c = nth (i mod length COLORS) COLORS ""%string ->
    (In d tl -> exists k, nth_error ((n, data) :: rest) k = Some (dname d, ddata d) /\
              dcolor d = nth ((i + k) mod length COLORS) COLORS ""%string) ->
    exists k, nth_error ((n, data) :: rest) k = Some (dname d, ddata d) /\
              dcolor d = nth ((i + k) mod length COLORS) COLORS ""%string).
  { intros c tl [<- | Hd] Hc Ht; [|apply Ht, Hd].
    exists 0%nat. simpl. split; [reflexivity|]. rewrite Nat.add_0_r. exact Hc. }
  cbn [render_from] in Hin. destruct (hidden t n); [apply Htail, Hin|].
  destruct data as [st [c|] ts | st pts ts | f].
  - destruct (String.eqb st "ok" && isWithinImageBounds v c);
      [eapply Hhead; [exact Hin | reflexivity | exact Htail] | apply Htail, Hin].
  - apply Htail, Hin.
  - destruct (Nat.leb 3 (length pts));
      [eapply Hhead; [exact Hin | reflexivity | exact Htail] | apply Htail, Hin].
  - eapply Hhead; [exact Hin | reflexivity | exact Htail].
Qed.

Lemma vis_get_set_other : forall t l b m, m <> l -> vis_get (vis_set t l b) m = vis_get t m.
Proof.
  induction t as [|[k b'] t IH]; intros l b m Hm; simpl.
  - destruct (String.eqb_spec m l); [congruence | reflexivity].
  - destruct (String.eqb_spec l k) as [-> | Hlk]; simpl.
    + destruct (String.eqb_spec m k); [congruence | reflexivity].
    + destruct (String.eqb_spec m k); [reflexivity | apply IH, Hm].
Qed.

(** Claim C10: every drawn annotation takes the colour
    [COLORS[i mod 12]] of its position [i] in the Store enumeration,
    hidden entries included; toggling one label's visibility leaves the
    colours of every other label unchanged, a hidden label draws nothing,
    and a label drawn under two visibility states gets the same colours
    under both. *)
Theorem render_color_by_position :
  (forall (v : view) (t : toggles) (s : store) (d : draw),
     In d (renderAnnotations v t s) ->
     exists i, nth_error s i = Some (dname d, ddata d) /\
               dcolor d = nth (i mod 12) COLORS ""%string) /\
  (forall (v : view) (t : toggles) (s : store) (l m : string), m <> l ->
     colors_of m (renderAnnotations v (toggleVisibility t l) s) =
     colors_of m (renderAnnotations v t s)) /\
  (forall (v : view) (t : toggles) (s : store) (l : string), hidden t l = true ->
     colors_of l (renderAnnotations v t s) = []) /\
  (forall (v : view) (t t' : toggles) (s : store) (l : string),
     hidden t l = false -> hidden t' l = false ->
     colors_of l (renderAnnotations v t s) = colors_of l (renderAnnotations v t' s)).
Proof.
  unfold renderAnnotations, colors_of.
  split; [|split; [|split]].
  - intros v t s d Hin. exact (render_position v t s 0 d Hin).
  - intros v t s l m Hml. f_equal.
    apply render_name_depends_on_own_toggle.
    unfold hidden, toggleVisibility. rewrite vis_get_set_other by exact Hml. reflexivity.
  - intros v t s l Hh. rewrite render_hidden_nothing by exact Hh. reflexivity.
  - intros v t t' s l H1 H2. f_equal.
    apply render_name_depends_on_own_toggle. congruence.
Qed.

Lemma render_color_by_position_witness :
  let fA := Figure (mkFigure "ok" 0 0 Circle 20 None "t0") in
  let fB := Figure (mkFigure "ok" 5 5 Rectangle 30 None "t0") in
  let s := [("A"%string, fA); ("B"%string, fB)] in
  let v := mkView 1 0 0 200 200 in
  (exists i, nth_error s i = Some ("B"%string, fB) /\ "#00ff00"%string = nth (i mod 12) COLORS ""%string) /\
  colors_of "B" (renderAnnotations v (toggleVisibility [] "A") s) = colors_of "B" (renderAnnotations v [] s) /\
  colors_of "A" (renderAnnotations v [("A"%string, false)] s) = [] /\
  colors_of "A" (renderAnnotations v [("A"%string, true)] s) = colors_of "A" (renderAnnotations v [] s).
Proof.
  intros fA fB s v.
  split; [|split; [|split]].
  - apply (proj1 render_color_by_position v [] s (mkDraw "B" "#00ff00" fB)).
    cbn. right. left. reflexivity.
  - apply (proj1 (proj2 render_color_by_position)). discriminate.
  - apply (proj1 (proj2 (proj2 render_color_by_position))). reflexivity.
  - apply (proj2 (proj2 (proj2 render_color_by_position))); reflexivity.
Defined.

(* ------------------------------------------------------------------ *)
(** ** Store and session lemmas *)

Lemma get_set_same : forall s k a, get (set s k a) k = Some a.
Proof.
  induction s as [|[k' a'] s IH]; intros k a; simpl.
  - rewrite String.eqb_refl. reflexivity.
  - destruct (String.eqb_spec k k') as [-> | Hk]; simpl.
    + rewrite String.eqb_refl. reflexivity.
    + apply String.eqb_neq in Hk. rewrite Hk. apply IH.
Qed.

Lemma get_set_other : forall s k a m, m <> k -> get (set s k a) m = get s m.
Proof.
  induction s as [|[k' a'] s IH]; intros k a m Hm; simpl.
  - destruct (String.eqb_spec m k); [congruence | reflexivity].
  - destruct (String.eqb_spec k k') as [-> | Hk]; simpl.
    + destruct (String.eqb_spec m k'); [congruence | reflexivity].
    + destruct (String.eqb_spec m k'); [reflexivity | apply IH, Hm].
Qed.

Lemma store_of_save : forall w, store_of (saveToHistoryW w) = store_of w.
Proof.
  intros w. unfold saveToHistoryW, store_of, saveToHistory; simpl.
  destruct (_ >? maxHistorySize)%Z; reflexivity.
Qed.

Lemma on_reply_failed_store : forall w ok msg r, failed r ->
  store_of (on_reply w ok msg r) = store_of w.
Proof.
  intros w ok msg r [-> | (st & -> & Hst)]; simpl; [reflexivity|].
  unfold is_success. apply String.eqb_neq in Hst. rewrite Hst. reflexivity.
Qed.

Lemma on_reply_network_error : forall w ok msg,
  messages (on_reply w ok msg NetworkError) = messages w ++ [(msg, Error)].
Proof. reflexivity. Qed.

Lemma on_reply_success : forall w ok msg, on_reply w ok msg (Reply "success") = ok.
Proof. reflexivity. Qed.

Lemma has_error_app : forall l msg, has_error (l ++ [(msg, Error)]).
Proof. intros l msg. exists msg. apply in_or_app. right. left. reflexivity. Qed.

(* ------------------------------------------------------------------ *)
(** ** Persistence failures *)

Lemma store_of_set_fig : forall w f, store_of (set_fig w f) = store_of w.
Proof. reflexivity. Qed.
Lemma store_of_set_drag : forall w d, store_of (set_drag w d) = store_of w.
Proof. reflexivity. Qed.
Lemma store_of_set_poly : forall w p, store_of (set_poly w p) = store_of w.
Proof. reflexivity. Qed.
Lemma store_of_showMessage : forall w t k, store_of (showMessage w t k) = store_of w.
Proof. reflexivity. Qed.
Lemma store_of_set_store : forall w s, store_of (set_store w s) = s.
Proof. reflexivity. Qed.
Lemma messages_set_fig : forall w f, messages (set_fig w f) = messages w.
Proof. reflexivity. Qed.
Lemma messages_set_drag : forall w d, messages (set_drag w d) = messages w.
Proof. reflexivity. Qed.
Lemma messages_set_poly : forall w p, messages (set_poly w p) = messages w.
Proof. reflexivity. Qed.

Create Rewrite HintDb session.
#[export] Hint Rewrite store_of_set_fig store_of_set_drag store_of_set_poly
  store_of_showMessage store_of_set_store store_of_save
  messages_set_fig messages_set_drag messages_set_poly : session.

Lemma run_bind : forall {A B} (r : response) (m : io A) (f : A -> io B),
  run r (bind m f) = run r (f (run r m)).
Proof. intros A B r m f. induction m as [a | rq k IH]; simpl; [reflexivity | apply IH]. Qed.

Lemma requests_bind_Ret : forall {A B} (r : response) (m : io A) (f : A -> B),
  requests r (bind m (fun a => Ret (f a))) = requests r m.
Proof. intros A B r m f. induction m as [a | rq k IH]; simpl; [reflexivity | f_equal; apply IH]. Qed.

(** Case analysis over the branches of a handler. *)
Ltac split_handler :=
  repeat match goal with
  | |- context [if ?b then _ else _] => destruct b
  | |- context [match ?x with _ => _ end] => destruct x
  end.

Lemma createNewLabel_failed_store : forall sl w ls vis name r, failed r ->
  store_of (fst (fst (run r (createNewLabel sl w ls vis name)))) = store_of w.
Proof.
  intros sl w ls vis name r Hr. unfold createNewLabel.
  destruct (String.eqb name ""); [reflexivity|].
  destruct (existsb _ _); [reflexivity|].
  cbn [run]. destruct Hr as [-> | (st & -> & Hst)]; [reflexivity|].
  unfold is_success. apply String.eqb_neq in Hst. rewrite Hst. reflexivity.
Qed.

Lemma createNewLabel_network_error_toast : forall sl w ls vis name,
  requests NetworkError (createNewLabel sl w ls vis name) <> [] ->
  has_error (messages (fst (fst (run NetworkError (createNewLabel sl w ls vis name))))).
Proof.
  intros sl w ls vis name. unfold createNewLabel.
  destruct (String.eqb name ""); [cbn; intros H; contradiction H; reflexivity|].
  destruct (existsb _ _); [cbn; intros H; contradiction H; reflexivity|].
  intros _. cbn. apply has_error_app.
Qed.

Lemma on_reply_nonsuccess : forall st, st <> "success"%string ->
  forall w ok msg, on_reply w ok msg (Reply st) = w.
Proof.
  intros st Hst w ok msg. cbn [on_reply]. unfold is_success.
  apply String.eqb_neq in Hst. rewrite Hst. reflexivity.
Qed.

Lemma createNewLabel_nonsuccess : forall sl w ls vis name st, st <> "success"%string ->
  fst (fst (run (Reply st) (createNewLabel sl w ls vis name))) = w \/
  requests (Reply st) (createNewLabel sl w ls vis name) = [].
Proof.
  intros sl w ls vis name st Hst. unfold createNewLabel.
  destruct (String.eqb name ""); [right; reflexivity|].
  destruct (existsb _ _); [right; reflexivity|].
  left. cbn [run]. unfold is_success. apply String.eqb_neq in Hst. rewrite Hst. reflexivity.
Qed.

Lemma run_complete_create : forall r sl ls vis name w,
  run r (complete (CCreateLabel sl ls vis name) w) = fst (fst (run r (createNewLabel sl w ls vis name))).
Proof. intros. unfold complete. rewrite run_bind. reflexivity. Qed.

Lemma requests_complete_create : forall r sl ls vis name w,
  requests r (complete (CCreateLabel sl ls vis name) w) = requests r (createNewLabel sl w ls vis name).
Proof. intros. unfold complete. apply requests_bind_Ret. Qed.

Lemma complete_failed_store : forall c w r, failed r ->
  store_of (run r (complete c w)) = store_of w.
Proof.
  intros c w r Hr.
  destruct c as [| | | | | | | | | |sl ls vis name];
    [| | | | | | | | | | rewrite run_complete_create; apply createNewLabel_failed_store, Hr];
    unfold complete;
    [unfold completeFigureDrawing | unfold completeLineDrawing | unfold completePolygon
    | unfold annotateLandmark | unfold markOccluded | unfold completeFigureInteraction, saveFigureUpdate
    | unfold completeLinePointInteraction | unfold saveFigureUpdate | unfold deleteSelectedFigure
    | unfold deleteAnnotation];
    split_handler; cbn [run bind]; autorewrite with session; try reflexivity;
    unfold set_figureDrawing, set_linePoints, set_polygonTool; autorewrite with session;
    apply on_reply_failed_store, Hr.
Qed.

Lemma complete_network_error_toast : forall c w,
  requests NetworkError (complete c w) <> [] ->
  has_error (messages (run NetworkError (complete c w))).
Proof.
  intros c w.
  destruct c as [| | | | | | | | | |sl ls vis name];
    [| | | | | | | | | | rewrite requests_complete_create, run_complete_create;
                          apply createNewLabel_network_error_toast];
    unfold complete;
    [unfold completeFigureDrawing | unfold completeLineDrawing | unfold completePolygon
    | unfold annotateLandmark | unfold markOccluded | unfold completeFigureInteraction, saveFigureUpdate
    | unfold completeLinePointInteraction | unfold saveFigureUpdate | unfold deleteSelectedFigure
    | unfold deleteAnnotation];
    split_handler; cbn [run bind requests]; intros Hne; try (exfalso; apply Hne; reflexivity);
    unfold set_figureDrawing, set_linePoints, set_polygonTool; autorewrite with session;
    rewrite on_reply_network_error; apply has_error_app.
Qed.

Lemma complete_nonsuccess_messages : forall c w st, st <> "success"%string ->
  requests (Reply st) (complete c w) <> [] ->
  messages (run (Reply st) (complete c w)) = messages w.
Proof.
  intros c w st Hst.
  destruct c as [| | | | | | | | | |sl ls vis name];
    [| | | | | | | | | | rewrite requests_complete_create, run_complete_create; intros Hne;
       destruct (createNewLabel_nonsuccess sl w ls vis name st Hst) as [-> | E];
       [reflexivity | contradiction]];
    unfold complete;
    [unfold completeFigureDrawing | unfold completeLineDrawing | unfold completePolygon
    | unfold annotateLandmark | unfold markOccluded | unfold completeFigureInteraction, saveFigureUpdate
    | unfold completeLinePointInteraction | unfold saveFigureUpdate | unfold deleteSelectedFigure
    | unfold deleteAnnotation];
    split_handler; cbn [run bind requests]; intros Hne; try (exfalso; apply Hne; reflexivity);
    rewrite ?(on_reply_nonsuccess st Hst);
    unfold set_figureDrawing, set_linePoints, set_polygonTool; autorewrite with session; reflexivity.
Qed.

Lemma handleMouseUp_failed_store : forall w up now r, failed r ->
  store_of (run r (handleMouseUp w up now)) = store_of w.
Proof.
  intros w up now r Hr. unfold handleMouseUp.
  rewrite run_bind; cbv beta; rewrite run_bind; cbv beta.
  assert (H3 : forall w0, store_of (run r (if linePointDragging (drag w0)
      then completeLinePointInteraction w0 else Ret w0)) = store_of w0).
  { intros w0. destruct (linePointDragging _);
      [apply (complete_failed_store CLinePointInteraction w0 r Hr) | reflexivity]. }
  assert (H2 : forall w0, store_of (run r (if figureDragging (drag w0) || figureResizing (drag w0)
      then completeFigureInteraction w0 else Ret w0)) = store_of w0).
  { intros w0. destruct (_ || _);
      [apply (complete_failed_store CFigureInteraction w0 r Hr) | reflexivity]. }
  rewrite H3, H2.
  destruct (_ && _); [apply (complete_failed_store (CFigureDrawing _ _) w r Hr) | reflexivity].
Qed.

Lemma save_update_reply_store : forall w m msg r,
  store_of (on_reply w (showMessage (saveToHistoryW w) m Success) msg r) = store_of w.
Proof.
  intros w m msg [|st]; simpl; [reflexivity|].
  destruct (is_success st); autorewrite with session; reflexivity.
Qed.

Lemma interaction_commits_nothing : forall w r,
  store_of (run r (completeFigureInteraction w)) = store_of w /\
  store_of (run r (completeLinePointInteraction w)) = store_of w.
Proof.
  intros w r. split.
  - unfold completeFigureInteraction, saveFigureUpdate; split_handler; cbn [run bind];
      autorewrite with session; try reflexivity; apply save_update_reply_store.
  - unfold completeLinePointInteraction; split_handler; cbn [run bind];
      autorewrite with session; try reflexivity; apply save_update_reply_store.
Qed.




(** Claim C1 fails: a drag of figure "F" from (10,10) to (15,15) whose
    [saveFigureUpdate] gets a non-success reply leaves the moved figure in
    the Store and shows no error. *)
Lemma drag_failure_keeps_moved_figure :
  let wf := run (Reply "error") (figure_gesture drag_session FBody "F"
              (mkPoint 10 10) (mkPoint 10 10) [mkPoint 15 15] (mkPoint 15 15) "t1") in
  get (store_of wf) "F" <> get (store_of drag_session) "F" /\
  messages wf = messages drag_session.
Proof.
  cbn. split; [|reflexivity].
  intros H. injection H as Hx _. unfold Rdiv in Hx. rewrite Rinv_1 in Hx. lra.
Qed.

Lemma drag_updateFigurePosition : forall w name x y,
  drag (updateFigurePosition w name x y) = drag w.
Proof.
  intros w name x y. unfold updateFigurePosition.
  destruct (get (store_of w) name) as [[| |f]|]; reflexivity.
Qed.

Lemma move_drag_idle : forall w mouse, figureDragging (drag w) = false -> move_drag w mouse = w.
Proof. intros w mouse H. unfold move_drag. rewrite H. reflexivity. Qed.

Lemma move_resize_idle : forall w mouse, figureResizing (drag w) = false -> move_resize w mouse = w.
Proof. intros w mouse H. unfold move_resize. rewrite H. reflexivity. Qed.

Lemma move_line_point_idle : forall w coords, linePointDragging (drag w) = false -> move_line_point w coords = w.
Proof. intros w coords H. unfold move_line_point. rewrite H. reflexivity. Qed.

Lemma drag_set_store : forall w s, drag (set_store w s) = drag w.
Proof. reflexivity. Qed.

Lemma drag_move_store : forall w mouse name f,
  figureDragging (drag w) = true -> selectedFigure (drag w) = Some name ->
  figureResizing (drag w) = false -> linePointDragging (drag w) = false ->
  get (store_of w) name = Some (Figure f) ->
  let nc := displayToImageCoords (wview w)
              (mkPoint (px mouse + figureDragOffsetX (drag w)) (py mouse + figureDragOffsetY (drag w))) in
  store_of (handleMouseMove w mouse) =
    set (store_of w) name (Figure (match fshape f with
      | Line => mkFigure (fstatus f) (px nc) (py nc) Line (fsize f)
                  (Some (shift_ends (figureOriginalEnds (drag w))
                     (px nc - figureOriginalX (drag w)) (py nc - figureOriginalY (drag w))))
                  (ftimestamp f)
      | _ => with_center f (px nc) (py nc)
      end)).
Proof.
  intros w mouse name f Hd Hs Hr Hl Hg nc.
  unfold handleMouseMove. fold nc.
  assert (Hw : forall s, store_of (move_line_point (move_resize (set_store w s) mouse)
      (displayToImageCoords (wview w) mouse)) = s).
  { intros s. rewrite move_resize_idle by (rewrite drag_set_store; exact Hr).
    rewrite move_line_point_idle by (rewrite drag_set_store; exact Hl). reflexivity. }
  unfold move_drag. rewrite Hd, Hs, Hg. fold nc.
  destruct (fshape f) eqn:Esh; [unfold updateFigurePosition; rewrite Hg; apply Hw
    | unfold updateFigurePosition; rewrite Hg; apply Hw | apply Hw].
Qed.

Lemma resize_move_store : forall w mouse name h f,
  figureDragging (drag w) = false -> figureResizing (drag w) = true ->
  selectedFigure (drag w) = Some name -> resizeHandle (drag w) = Some h ->
  linePointDragging (drag w) = false -> get (store_of w) name = Some (Figure f) ->
  let z := currentZoom (wview w) in
  let deltaX := px mouse - figureDragStartX (drag w) in
  let deltaY := py mouse - figureDragStartY (drag w) in
  let c1 := if includes "e"%char h then deltaX / z else 0 in
  let c2 := if includes "w"%char h then c1 - deltaX / z else c1 in
  let c3 := if includes "s"%char h then c2 + deltaY / z else c2 in
  let c4 := if includes "n"%char h then c3 - deltaY / z else c3 in
  store_of (handleMouseMove w mouse) =
    set (store_of w) name (Figure (with_size f (Rmax 10 (figureOriginalSize (drag w) + c4)))).
Proof.
  intros w mouse name h f Hd Hr Hs Hh Hl Hg.
  unfold handleMouseMove. rewrite move_drag_idle by exact Hd.
  unfold move_resize. rewrite Hr, Hs, Hh. cbv zeta. unfold updateFigureSize. rewrite Hg.
  rewrite move_line_point_idle by (rewrite drag_set_store; exact Hl). reflexivity.
Qed.

Lemma arrow_store : forall w dir m r name f,
  selectedFigure (drag w) = Some name -> get (store_of w) name = Some (Figure f) ->
  store_of (run r (moveFigureWithArrow w dir m)) =
    set (store_of w) name (Figure (with_center f
      (clamp 0 (naturalWidth (wview w)) (fx f + fst (arrow_vec dir) * stepSize m))
      (clamp 0 (naturalHeight (wview w)) (fy f + snd (arrow_vec dir) * stepSize m)))).
Proof.
  intros w dir m r name f Hs Hg.
  assert (Hx : forall s, match dir with ArrowLeft => fx f - s | ArrowRight => fx f + s | _ => fx f end
                 = fx f + fst (arrow_vec dir) * s) by (intros s; destruct dir; cbn; ring).
  assert (Hy : forall s, match dir with ArrowUp => fy f - s | ArrowDown => fy f + s | _ => fy f end
                 = fy f + snd (arrow_vec dir) * s) by (intros s; destruct dir; cbn; ring).
  unfold moveFigureWithArrow. rewrite Hs, Hg. cbv zeta. rewrite Hx, Hy.
  unfold saveFigureUpdate. cbn [run]. rewrite save_update_reply_store, store_of_showMessage.
  unfold updateFigurePosition. rewrite Hg. reflexivity.
Qed.

(** Claim C1 (amended): a failed persistence call never changes the Store
    by itself.  Every persisting handler, and the pointer-up dispatcher,
    leaves the Store as it was when the reply is a network error or a
    non-success status.  A network error on a call that was made shows an
    error toast; a non-success status shows no message at all.  Drag
    gestures are not atomic, however: every pointer move of a drag-to-move
    writes the moved figure into the Store (a line with both endpoints
    shifted), every pointer move of a resize writes the new size, and an
    arrow nudge writes the new centre whatever the reply.  The completion
    of a drag, resize or endpoint drag commits nothing and rolls nothing
    back. *)
Theorem failed_call_leaves_store :
  (forall c w r, failed r -> store_of (run r (complete c w)) = store_of w) /\
  (forall w up now r, failed r -> store_of (run r (handleMouseUp w up now)) = store_of w) /\
  (forall c w, requests NetworkError (complete c w) <> [] ->
     has_error (messages (run NetworkError (complete c w)))) /\
  (forall c w st, st <> "success"%string -> requests (Reply st) (complete c w) <> [] ->
     messages (run (Reply st) (complete c w)) = messages w) /\
  (forall w mouse name f, name <> ""%string ->
     figureDragging (drag w) = true -> selectedFigure (drag w) = Some name ->
     figureResizing (drag w) = false -> linePointDragging (drag w) = false ->
     get (store_of w) name = Some (Figure f) ->
     let nc := displayToImageCoords (wview w)
                 (mkPoint (px mouse + figureDragOffsetX (drag w)) (py mouse + figureDragOffsetY (drag w))) in
     store_of (handleMouseMove w mouse) =
       set (store_of w) name (Figure (match fshape f with
         | Line => mkFigure (fstatus f) (px nc) (py nc) Line (fsize f)
                     (Some (shift_ends (figureOriginalEnds (drag w))
                        (px nc - figureOriginalX (drag w)) (py nc - figureOriginalY (drag w))))
                     (ftimestamp f)
         | _ => with_center f (px nc) (py nc)
         end))) /\
  (forall w mouse name h f, name <> ""%string -> h <> ""%string ->
     figureDragging (drag w) = false -> figureResizing (drag w) = true ->
     selectedFigure (drag w) = Some name -> resizeHandle (drag w) = Some h ->
     linePointDragging (drag w) = false -> get (store_of w) name = Some (Figure f) ->
     let z := currentZoom (wview w) in
     let deltaX := px mouse - figureDragStartX (drag w) in
     let deltaY := py mouse - figureDragStartY (drag w) in
     let c1 := if includes "e"%char h then deltaX / z else 0 in
     let c2 := if includes "w"%char h then c1 - deltaX / z else c1 in
     let c3 := if includes "s"%char h then c2 + deltaY / z else c2 in
     let c4 := if includes "n"%char h then c3 - deltaY / z else c3 in
     store_of (handleMouseMove w mouse) =
       set (store_of w) name (Figure (with_size f (Rmax 10 (figureOriginalSize (drag w) + c4))))) /\
  (forall w r, store_of (run r (completeFigureInteraction w)) = store_of w /\
     store_of (run r (completeLinePointInteraction w)) = store_of w) /\
  (forall w dir m r name f, name <> ""%string ->
     selectedFigure (drag w) = Some name -> get (store_of w) name = Some (Figure f) ->
     store_of (run r (moveFigureWithArrow w dir m)) =
       set (store_of w) name (Figure (with_center f
         (clamp 0 (naturalWidth (wview w)) (fx f + fst (arrow_vec dir) * stepSize m))
         (clamp 0 (naturalHeight (wview w)) (fy f + snd (arrow_vec dir) * stepSize m))))).
Proof.
  split; [exact complete_failed_store|].
  split; [exact handleMouseUp_failed_store|].
  split; [exact complete_network_error_toast|].
  split; [exact complete_nonsuccess_messages|].
  split; [intros w mouse name f _; apply drag_move_store|].
  split; [intros w mouse name h f _ _; apply resize_move_store|].
  split; [exact interaction_commits_nothing|].
  intros w dir m r name f _. apply arrow_store.
Qed.

Lemma failed_call_leaves_store_witness :
  failed (Reply "error") /\
  store_of (run (Reply "error") (complete (CDeleteAnnotation true "F") dragging_session)) =
    store_of dragging_session /\
  store_of (run (Reply "error") (handleMouseUp dragging_session (mkPoint 15 15) "t1")) =
    store_of dragging_session /\
  has_error (messages (run NetworkError (complete CFigureInteraction dragging_session))) /\
  messages (run (Reply "error") (complete CFigureInteraction dragging_session)) =
    messages dragging_session /\
  store_of (handleMouseMove dragging_session (mkPoint 15 15)) =
    [("F"%string, Figure (with_center (mkFigure "ok" 10 10 Circle 20 None "t0")
      (px (displayToImageCoords (wview dragging_session)
        (mkPoint (15 + figureDragOffsetX (drag dragging_session)) (15 + figureDragOffsetY (drag dragging_session)))))
      (py (displayToImageCoords (wview dragging_session)
        (mkPoint (15 + figureDragOffsetX (drag dragging_session)) (15 + figureDragOffsetY (drag dragging_session)))))))] /\
  store_of (handleMouseMove (set_drag drag_session
      (mkDrag (Some "F"%string) false true (Some "e"%string) 20 10 0 0 20 0 0 (mkEnds 0 0 0 0)
         false None None)) (mkPoint 30 10)) =
    [("F"%string, Figure (with_size (mkFigure "ok" 10 10 Circle 20 None "t0") (Rmax 10 (20 + ((30 - 20) / 1)))))] /\
  store_of (run (Reply "error") (moveFigureWithArrow dragging_session ArrowRight (mkMods true false false))) =
    [("F"%string, Figure (with_center (mkFigure "ok" 10 10 Circle 20 None "t0")
      (clamp 0 200 (10 + 1 * 10)) (clamp 0 200 (10 + 0 * 10))))].
Proof.
  destruct failed_call_leaves_store as (Ha & Hb & Hc & Hd & He & Hf & _ & Hh).
  assert (Hfl : failed (Reply "error")).
  { right. exists "error"%string. split; [reflexivity | discriminate]. }
  split; [exact Hfl|].
  split; [apply Ha, Hfl|].
  split; [apply Hb, Hfl|].
  split; [apply Hc; cbn; discriminate|].
  split; [apply Hd; [discriminate | cbn; discriminate]|].
  split; [apply (He dragging_session (mkPoint 15 15) "F"%string (mkFigure "ok" 10 10 Circle 20 None "t0"));
          [discriminate | reflexivity ..]|].
  split.
  - rewrite (Hf _ (mkPoint 30 10) "F"%string "e"%string (mkFigure "ok" 10 10 Circle 20 None "t0"));
      [reflexivity | discriminate | discriminate | reflexivity ..].
  - apply (Hh dragging_session ArrowRight (mkMods true false false) (Reply "error") "F"%string
      (mkFigure "ok" 10 10 Circle 20 None "t0")); [discriminate | reflexivity ..].
Defined.

(* ------------------------------------------------------------------ *)
(** ** Line figures *)

Lemma Int_part_IZR : forall z, Int_part (IZR z) = z.
Proof.
  intros z. unfold Int_part.
  rewrite <- (tech_up (IZR z) (z + 1)); [ring | rewrite plus_IZR; lra | rewrite plus_IZR; lra].
Qed.

(** [Math.round] moves its argument by at most one half. *)
Lemma js_round_near : forall v, Rabs (js_round v - v) <= 1/2.
Proof.
  intros v. unfold js_round. destruct (base_Int_part (v + /2)) as [H1 H2].
  apply Rabs_le. lra.
Qed.

Lemma dist_vertical : dist 0 0 0 (21/2) = 21/2.
Proof.
  unfold dist. replace ((0 - 0) * (0 - 0) + (21/2 - 0) * (21/2 - 0)) with ((21/2) * (21/2)) by ring.
  apply sqrt_square. lra.
Qed.

Lemma linePoints_set : forall w l, linePoints (fig (set_linePoints w l)) = l.
Proof. reflexivity. Qed.

Lemma store_of_set_linePoints : forall w l, store_of (set_linePoints w l) = store_of w.
Proof. reflexivity. Qed.

(** Claim C4 fails: a line from (0, 0) to (0, 10.5) is stored with size
    [Math.round(10.5) = 11], half a pixel away from its length. *)
Lemma line_size_is_rounded :
  exists f,
    get (store_of (run (Reply "success")
      (completeLineDrawing (line_session (mkPoint 0 0) (mkPoint 0 (21/2))) "t1"))) "L"
      = Some (Figure f) /\
    fends f = Some (mkEnds 0 0 0 (21/2)) /\
    fsize f = 11 /\ dist 0 0 0 (21/2) = 21/2.
Proof.
  unfold completeLineDrawing, line_session. rewrite linePoints_set. cbv zeta.
  cbn [px py]. rewrite dist_vertical.
  destruct (Rlt_dec (21/2) 10) as [Hlt | _]; [lra|].
  cbn [run]. rewrite on_reply_success.
  eexists. split; [rewrite store_of_set_linePoints; autorewrite with session; apply get_set_same|].
  split; [reflexivity|]. split; [|reflexivity].
  cbn [fsize]. unfold js_round.
  replace (21/2 + /2) with (IZR 11) by (cbn; lra).
  rewrite Int_part_IZR. reflexivity.
Qed.



(** Claim C4 (amended): a created line has its centre at the midpoint of
    its endpoints and stores [Math.round] of its length as size, so the
    size is within one half of the length; an endpoint drag recomputes the
    centre as the midpoint and the size as the exact length of the new
    endpoints. *)
Theorem line_midpoint_and_size :
  (forall w a b now, 10 <= dist (px a) (py a) (px b) (py b) ->
     exists f,
       get (store_of (run (Reply "success") (completeLineDrawing (set_linePoints w [a; b]) now)))
         (label_key (selectedLabel w)) = Some (Figure f) /\
       fshape f = Line /\ fends f = Some (mkEnds (px a) (py a) (px b) (py b)) /\
       fx f = (px a + px b) / 2 /\ fy f = (py a + py b) / 2 /\
       fsize f = js_round (dist (px a) (py a) (px b) (py b)) /\
       Rabs (fsize f - dist (px a) (py a) (px b) (py b)) <= 1/2) /\
  (forall w mouse name f e,
     figureDragging (drag w) = false -> figureResizing (drag w) = false ->
     linePointDragging (drag w) = true -> linePointDraggedFigure (drag w) = Some name ->
     get (store_of w) name = Some (Figure f) -> fends f = Some e ->
     exists g e1,
       get (store_of (handleMouseMove w mouse)) name = Some (Figure g) /\
       fends g = Some e1 /\
       fx g = (startX e1 + endX e1) / 2 /\ fy g = (startY e1 + endY e1) / 2 /\
       fsize g = dist (startX e1) (startY e1) (endX e1) (endY e1)).
Proof.
  split.
  - intros w a b now Hd. unfold completeLineDrawing. rewrite linePoints_set. cbv zeta.
    destruct (Rlt_dec (dist (px a) (py a) (px b) (py b)) 10) as [Hlt | _]; [lra|].
    cbn [run]. rewrite on_reply_success.
    eexists. split; [rewrite store_of_set_linePoints; autorewrite with session; apply get_set_same|].
    cbn [fshape fends fx fy fsize].
    split; [reflexivity|]. split; [reflexivity|]. split; [reflexivity|].
    split; [reflexivity|]. split; [reflexivity|]. apply js_round_near.
  - intros w mouse name f e Hd Hr Hl Hn Hg He.
    unfold handleMouseMove. cbv zeta.
    rewrite (move_drag_idle w mouse Hd), (move_resize_idle w mouse Hr).
    unfold move_line_point. rewrite Hl, Hn, Hg, He. cbv zeta.
    eexists. eexists. split; [apply get_set_same|].
    cbn [fends fx fy fsize].
    split; [reflexivity|]. split; [reflexivity|]. split; reflexivity.
Qed.

Lemma line_midpoint_and_size_witness :
  10 <= dist 0 0 0 (21/2) /\
  (exists f,
     get (store_of (run (Reply "success") (completeLineDrawing
       (set_linePoints (session [] true TFigure (Some "L"%string) Line) [mkPoint 0 0; mkPoint 0 (21/2)])
       "t1"))) "L" = Some (Figure f) /\
     fx f = 0 /\ fy f = 21/4 /\ fsize f = js_round (21/2)) /\
  (exists g e1,
     get (store_of (handleMouseMove endpoint_session (mkPoint 30 40))) "L" = Some (Figure g) /\
     fends g = Some e1 /\ fx g = (startX e1 + endX e1) / 2 /\
     fsize g = dist (startX e1) (startY e1) (endX e1) (endY e1)).
Proof.
  destruct line_midpoint_and_size as [H1 H2].
  assert (Hd : 10 <= dist 0 0 0 (21/2)) by (rewrite dist_vertical; lra).
  split; [exact Hd|]. split.
  - destruct (H1 (session [] true TFigure (Some "L"%string) Line) (mkPoint 0 0) (mkPoint 0 (21/2))
      "t1"%string Hd) as (f & Hf & _ & _ & Hx & Hy & Hs & _).
    exists f. split; [exact Hf|]. cbn [px py] in Hx, Hy, Hs. rewrite dist_vertical in Hs.
    split; [rewrite Hx; field|]. split; [rewrite Hy; field | exact Hs].
  - destruct (H2 endpoint_session (mkPoint 30 40) "L"%string
      (mkFigure "ok" 5 0 Line 10 (Some (mkEnds 0 0 10 0)) "t0") (mkEnds 0 0 10 0));
      try reflexivity.
    destruct H as (e1 & Hg & He & Hx & _ & Hs).
    exists x, e1. split; [exact Hg|]. split; [exact He|]. split; [exact Hx | exact Hs].
Defined.

(* ------------------------------------------------------------------ *)
(** ** Polygons *)

Lemma in_bounds_intro : forall v p,
  0 <= px p -> 0 <= py p -> px p < naturalWidth v -> py p < naturalHeight v ->
  isWithinImageBounds v p = true.
Proof.
  intros v p H1 H2 H3 H4. unfold isWithinImageBounds.
  destruct (Rle_dec 0 (px p)); [|contradiction].
  destruct (Rle_dec 0 (py p)); [|contradiction].
  destruct (Rlt_dec (px p) (naturalWidth v)); [|contradiction].
  destruct (Rlt_dec (py p) (naturalHeight v)); [reflexivity | contradiction].
Qed.

Lemma clicks_polygon : forall ms w now l,
  isAnnotationMode w = true -> selectedLabel w = Some l -> currentTool w = TPolygon ->
  polygonTool (poly w) = PDraw ->
  Forall (fun m => isWithinImageBounds (wview w) (displayToImageCoords (wview w) m) = true) ms ->
  exists w', clicks w ms now = Ret w' /\
    store_of w' = store_of w /\ messages w' = messages w /\
    activePolygonPoints (poly w') = activePolygonPoints (poly w) ++ map (displayToImageCoords (wview w)) ms /\
    polygonTool (poly w') = PDraw /\ selectedLabel w' = selectedLabel w.
Proof.
  induction ms as [|m ms IH]; intros w now l Ha Hl Ht Hp Hb.
  - exists w. rewrite app_nil_r. repeat split; try reflexivity. exact Hp.
  - inversion Hb as [|? ? Hm Hms]; subst.
    set (w1 := set_poly (set_drag w (set_selectedFigure (drag w) None))
                 (mkPoly (activePolygonPoints (poly w) ++ [displayToImageCoords (wview w) m]) PDraw)).
    assert (Hd : handleMouseDown w m now = Ret w1).
    { unfold handleMouseDown, w1, set_drag. cbn [isAnnotationMode selectedLabel wview currentTool].
      rewrite Ha, Hl, Hm, Ht. cbn [negb]. unfold handlePolygonClick. cbn [poly]. rewrite Hp.
      reflexivity. }
    destruct (IH w1 now l Ha Hl Ht eq_refl Hms) as (w' & Hc & Hs & Hmsg & Hpts & Hpt & Hsel).
    exists w'. cbn [clicks]. rewrite Hd. cbn [bind].
    split; [exact Hc|]. split; [exact Hs|]. split; [exact Hmsg|].
    split; [|split; [exact Hpt | exact Hsel]].
    rewrite Hpts. cbn [w1 poly activePolygonPoints set_poly]. unfold w1, set_poly.
    cbn [poly activePolygonPoints wview]. rewrite <- app_assoc. reflexivity.
Qed.


(** Claim C5: [completePolygon] with fewer than 3 transient points only
    shows a warning, makes no request and leaves the Store as it was;
    after 3 or more in-bounds clicks in draw mode from an empty list, a
    success reply stores the clicked points, in click order, under the
    selected label, after exactly one request, and the tool switches to
    edit.  With fewer than 3 clicks the gesture makes no request and leaves
    the Store unchanged. *)
Theorem polygon_minimum :
  (forall w now r, (length (activePolygonPoints (poly w)) < 3)%nat ->
     requests r (completePolygon w now) = [] /\
     store_of (run r (completePolygon w now)) = store_of w /\
     messages (run r (completePolygon w now)) =
       messages w ++ [("Need at least 3 points"%string, Warning)]) /\
  (forall w ms now l,
     isAnnotationMode w = true -> selectedLabel w = Some l -> currentTool w = TPolygon ->
     poly w = mkPoly [] PDraw ->
     Forall (fun m => isWithinImageBounds (wview w) (displayToImageCoords (wview w) m) = true) ms ->
     ((length ms < 3)%nat -> forall r,
        requests r (polygon_gesture w ms now) = [] /\
        store_of (run r (polygon_gesture w ms now)) = store_of w) /\
     ((3 <= length ms)%nat ->
        requests (Reply "success") (polygon_gesture w ms now) =
          [mkReq "segments" l (BPolygon (map (displayToImageCoords (wview w)) ms))] /\
        get (store_of (run (Reply "success") (polygon_gesture w ms now))) l =
          Some (Polygon "ok" (map (displayToImageCoords (wview w)) ms) now) /\
        length (map (displayToImageCoords (wview w)) ms) = length ms /\
        polygonTool (poly (run (Reply "success") (polygon_gesture w ms now))) = PEdit)).
Proof.
  split.
  - intros w now r Hlt. unfold completePolygon. cbv zeta.
    apply Nat.ltb_lt in Hlt. rewrite Hlt. repeat split; reflexivity.
  - intros w ms now l Ha Hl Ht Hp Hb.
    assert (Hp' : polygonTool (poly w) = PDraw) by (rewrite Hp; reflexivity).
    destruct (clicks_polygon ms w now l Ha Hl Ht Hp' Hb) as (w' & Hc & Hs & _ & Hpts & _ & Hsel).
    rewrite Hp in Hpts. cbn [activePolygonPoints app] in Hpts.
    unfold polygon_gesture. rewrite Hc. cbn [bind]. unfold completePolygon.
    rewrite Hpts, Hsel, Hl. cbv zeta. cbn [label_key]. split.
    + intros Hlt r. apply Nat.ltb_lt in Hlt. rewrite length_map, Hlt. split; [reflexivity | exact Hs].
    + intros Hge. assert (Hn : Nat.ltb (length (map (displayToImageCoords (wview w)) ms)) 3 = false)
        by (apply Nat.ltb_ge; rewrite length_map; exact Hge).
      rewrite Hn. cbn [requests run]. rewrite on_reply_success.
      split; [reflexivity|]. split.
      * unfold set_polygonTool. autorewrite with session. rewrite Hs. apply get_set_same.
      * split; [apply length_map | reflexivity].
Qed.

Lemma polygon_minimum_witness :
  requests (Reply "error")
    (polygon_gesture (session [] true TPolygon (Some "P"%string) Circle)
       [mkPoint 10 10; mkPoint 50 10] "t1") = [] /\
  get (store_of (run (Reply "success")
    (polygon_gesture (session [] true TPolygon (Some "P"%string) Circle)
       [mkPoint 10 10; mkPoint 50 10; mkPoint 10 50] "t1"))) "P" =
    Some (Polygon "ok" (map (displayToImageCoords (mkView 1 0 0 200 200))
      [mkPoint 10 10; mkPoint 50 10; mkPoint 10 50]) "t1").
Proof.
  destruct polygon_minimum as [_ H].
  assert (Hb : forall ms, Forall (fun m => 0 <= px m < 200 /\ 0 <= py m < 200) ms ->
    Forall (fun m => isWithinImageBounds (mkView 1 0 0 200 200)
      (displayToImageCoords (mkView 1 0 0 200 200) m) = true) ms).
  { intros ms Hms. eapply Forall_impl; [|exact Hms].
    intros m [Hx Hy]. apply in_bounds_intro; cbn; unfold Rdiv; rewrite Rinv_1; lra. }
  split.
  - destruct (H (session [] true TPolygon (Some "P"%string) Circle) [mkPoint 10 10; mkPoint 50 10]
      "t1"%string "P"%string eq_refl eq_refl eq_refl eq_refl) as [H2 _].
    + apply Hb. repeat constructor; cbn; lra.
    + apply H2; [cbn; lia].
  - destruct (H (session [] true TPolygon (Some "P"%string) Circle)
      [mkPoint 10 10; mkPoint 50 10; mkPoint 10 50]
      "t1"%string "P"%string eq_refl eq_refl eq_refl eq_refl) as [_ H3].
    + apply Hb. repeat constructor; cbn; lra.
    + apply H3. cbn. lia.
Defined.

(* ------------------------------------------------------------------ *)
(** ** Landmarks *)

(** Claim C6: a successful occluded action sets the label's entry to a
    landmark with the occluded status, which the code spells
    ["occluded/missing"], and with no coordinates, and leaves every other
    label as it was; a successful landmark click sets the entry to status
    ["ok"] with the coordinates.  So the written entries carry coordinates
    exactly when their status is ["ok"]. *)
Theorem occluded_sets_status :
  (forall w name now,
     get (store_of (run (Reply "success") (markOccluded w name now))) name =
       Some (Landmark "occluded/missing" None now)) /\
  (forall w name now m, m <> name ->
     get (store_of (run (Reply "success") (markOccluded w name now))) m = get (store_of w) m) /\
  (forall w coords now,
     get (store_of (run (Reply "success") (annotateLandmark w coords now)))
       (label_key (selectedLabel w)) = Some (Landmark "ok" (Some coords) now)).
Proof.
  split; [|split].
  - intros w name now. unfold markOccluded. cbn [run]. rewrite on_reply_success.
    autorewrite with session. apply get_set_same.
  - intros w name now m Hm. unfold markOccluded. cbn [run]. rewrite on_reply_success.
    autorewrite with session. apply get_set_other, Hm.
  - intros w coords now. unfold annotateLandmark. cbv zeta. cbn [run]. rewrite on_reply_success.
    autorewrite with session. apply get_set_same.
Qed.

Lemma occluded_sets_status_witness :
  get (store_of (run (Reply "success")
    (markOccluded (session [("eye"%string, Landmark "ok" (Some (mkPoint 1 2)) "t0")] true TLandmark
       (Some "nose"%string) Circle) "nose" "t1"))) "eye" =
    Some (Landmark "ok" (Some (mkPoint 1 2)) "t0").
Proof.
  destruct occluded_sets_status as (_ & H & _).
  rewrite (H _ "nose"%string "t1"%string "eye"%string); [reflexivity | discriminate].
Defined.

(* ------------------------------------------------------------------ *)
(** ** Circle and rectangle drawings *)

Lemma Int_part_between : forall z r, IZR z <= r < IZR z + 1 -> Int_part r = z.
Proof.
  intros z r [H1 H2]. unfold Int_part.
  rewrite <- (tech_up r (z + 1)); [ring | rewrite plus_IZR; lra | rewrite plus_IZR; lra].
Qed.

(** The rounded size reaches 10 exactly when the unrounded one reaches 9.5. *)
Lemma js_round_ge10 : forall v, 10 <= js_round v <-> 19/2 <= v.
Proof.
  intros v. unfold js_round. destruct (base_Int_part (v + /2)) as [H1 H2]. split; intros H.
  - lra.
  - assert (Hz : (9 < Int_part (v + /2))%Z) by (apply lt_IZR; lra).
    apply (IZR_le 10). lia.
Qed.

Lemma dist_from_origin_vertical : forall y, 0 <= y -> dist 0 0 0 y = y.
Proof.
  intros y Hy. unfold dist. replace ((0 - 0) * (0 - 0) + (y - 0) * (y - 0)) with (y * y) by ring.
  apply sqrt_square. exact Hy.
Qed.

(** Claim C7 fails: a circle whose unrounded size [2 * distance] is 9.6 is
    saved, with size 10, after one request. *)
Lemma small_circle_is_saved :
  dist 0 0 0 (24/5) * 2 < 10 /\
  requests (Reply "success") (completeFigureDrawing circle_session (mkPoint 0 (24/5)) "t1") <> [] /\
  get (store_of (run (Reply "success") (completeFigureDrawing circle_session (mkPoint 0 (24/5)) "t1")))
    "C" = Some (Figure (mkFigure "ok" 0 0 Circle 10 None "t1")).
Proof.
  assert (Hd : dist 0 0 0 (24/5) = 24/5) by (apply dist_from_origin_vertical; lra).
  assert (Hr : js_round (dist 0 0 0 (24/5) * 2) = 10).
  { rewrite Hd. unfold js_round. rewrite (Int_part_between 10); [reflexivity | lra]. }
  split; [rewrite Hd; lra|].
  unfold completeFigureDrawing, circle_session. cbn [fig set_fig figureDrawing negb figureStartX figureStartY px py].
  cbv zeta. rewrite Hr.
  destruct (Rlt_dec 10 10) as [Hlt | _]; [lra|].
  split; [cbn; discriminate|].
  cbn [run]. rewrite on_reply_success. unfold set_figureDrawing. autorewrite with session.
  apply get_set_same.
Qed.

(** Claim C7 (amended): pointer-up of a circle or rectangle drawing
    compares [Math.round(2 * distance)] with 10, so it aborts exactly when
    the unrounded size is below 9.5: then it shows the too-small warning,
    makes no request and leaves the Store as it was.  Otherwise it makes one
    request and, on success, stores the figure with the rounded size, which
    is at least 10. *)
Theorem figure_drawing_threshold :
  forall w coords now, figureDrawing (fig w) = true ->
  let d := dist (figureStartX (fig w)) (figureStartY (fig w)) (px coords) (py coords) * 2 in
  (d < 19/2 -> forall r,
     requests r (completeFigureDrawing w coords now) = [] /\
     store_of (run r (completeFigureDrawing w coords now)) = store_of w /\
     messages (run r (completeFigureDrawing w coords now)) =
       messages w ++ [("Figure too small, draw larger"%string, Warning)]) /\
  (19/2 <= d ->
     (forall r, requests r (completeFigureDrawing w coords now) =
        [mkReq "figures" (label_key (selectedLabel w))
           (BFigure (figureStartX (fig w)) (figureStartY (fig w)) (figureShape (fig w)) (js_round d) None)]) /\
     get (store_of (run (Reply "success") (completeFigureDrawing w coords now)))
       (label_key (selectedLabel w)) =
       Some (Figure (mkFigure "ok" (figureStartX (fig w)) (figureStartY (fig w)) (figureShape (fig w))
                       (js_round d) None now)) /\
     10 <= js_round d).
Proof.
  intros w coords now Hfd. cbv zeta. unfold completeFigureDrawing. rewrite Hfd. cbn [negb]. split.
  - intros Hlt r.
    destruct (Rlt_dec (js_round (dist (figureStartX (fig w)) (figureStartY (fig w)) (px coords) (py coords) * 2)) 10)
      as [_ | Hn].
    + repeat split; reflexivity.
    + exfalso. apply Rnot_lt_le, js_round_ge10 in Hn. lra.
  - intros Hge.
    destruct (Rlt_dec (js_round (dist (figureStartX (fig w)) (figureStartY (fig w)) (px coords) (py coords) * 2)) 10)
      as [Hlt | _].
    + exfalso. apply js_round_ge10 in Hge. lra.
    + split; [intros r; reflexivity|]. split.
      * cbn [run]. rewrite on_reply_success. unfold set_figureDrawing. autorewrite with session.
        apply get_set_same.
      * apply js_round_ge10, Hge.
Qed.

Lemma figure_drawing_threshold_witness :
  requests (Reply "success") (completeFigureDrawing circle_session (mkPoint 0 4) "t1") = [] /\
  get (store_of (run (Reply "success") (completeFigureDrawing circle_session (mkPoint 0 (24/5)) "t1")))
    "C" = Some (Figure (mkFigure "ok" 0 0 Circle (js_round (dist 0 0 0 (24/5) * 2)) None "t1")).
Proof.
  split.
  - apply (figure_drawing_threshold circle_session (mkPoint 0 4) "t1"%string eq_refl).
    + cbn. rewrite dist_from_origin_vertical; lra.
  - apply (figure_drawing_threshold circle_session (mkPoint 0 (24/5)) "t1"%string eq_refl).
    cbn. rewrite dist_from_origin_vertical; lra.
Defined.

(* ------------------------------------------------------------------ *)
(** ** Arrow-key nudges *)

Lemma clamp_range : forall lo hi v, lo <= hi -> lo <= clamp lo hi v <= hi.
Proof.
  intros lo hi v H. unfold clamp, Rmax, Rmin.
  destruct (Rle_dec hi v); destruct (Rle_dec lo _); lra.
Qed.

Lemma clamp_id : forall lo hi v, lo <= v <= hi -> clamp lo hi v = v.
Proof.
  intros lo hi v H. unfold clamp, Rmax, Rmin.
  destruct (Rle_dec hi v); destruct (Rle_dec lo _); lra.
Qed.

Lemma store_of_updateFigurePosition : forall w name f x y,
  get (store_of w) name = Some (Figure f) ->
  store_of (updateFigurePosition w name x y) = set (store_of w) name (Figure (with_center f x y)).
Proof. intros w name f x y H. unfold updateFigurePosition. rewrite H. reflexivity. Qed.

(** Claim C8: the step is 1 by default, 10 with Shift, and 0.5 with Ctrl
    or Cmd (Shift wins over both); a nudge of a selected figure moves its
    centre by the step along the arrow's axis, clamps both coordinates into
    [0, naturalWidth] x [0, naturalHeight], writes the new centre into the
    Store and issues exactly one persistence call, whatever the reply. *)
Theorem arrow_nudge :
  (forall m, shiftKey m = false -> ctrlKey m = false -> metaKey m = false -> stepSize m = 1) /\
  (forall m, shiftKey m = true -> stepSize m = 10) /\
  (forall m, shiftKey m = false -> ctrlKey m = true \/ metaKey m = true -> stepSize m = 1/2) /\
  (forall w dir m r name f,
     selectedFigure (drag w) = Some name -> get (store_of w) name = Some (Figure f) ->
     let ux := fx f + fst (arrow_vec dir) * stepSize m in
     let uy := fy f + snd (arrow_vec dir) * stepSize m in
     let nx := clamp 0 (naturalWidth (wview w)) ux in
     let ny := clamp 0 (naturalHeight (wview w)) uy in
     requests r (moveFigureWithArrow w dir m) =
       [mkReq "figures" name (BUpdate nx ny (fshape f) (fsize f) None)] /\
     get (store_of (run r (moveFigureWithArrow w dir m))) name = Some (Figure (with_center f nx ny)) /\
     (0 <= naturalWidth (wview w) -> 0 <= nx <= naturalWidth (wview w)) /\
     (0 <= naturalHeight (wview w) -> 0 <= ny <= naturalHeight (wview w)) /\
     (0 <= ux <= naturalWidth (wview w) -> nx = ux) /\
     (0 <= uy <= naturalHeight (wview w) -> ny = uy)).
Proof.
  split; [intros [[] [] []] H1 H2 H3; cbn in *; congruence|].
  split; [intros [[] c me] H; cbn in *; congruence|].
  split; [intros [[] [] []] H1 H2; cbn in *; try reflexivity; try congruence;
          destruct H2; discriminate|].
  intros w dir m r name f Hs Hg. cbv zeta.
  assert (Hx : forall s, match dir with ArrowLeft => fx f - s | ArrowRight => fx f + s | _ => fx f end
                 = fx f + fst (arrow_vec dir) * s) by (intros s; destruct dir; cbn; ring).
  assert (Hy : forall s, match dir with ArrowUp => fy f - s | ArrowDown => fy f + s | _ => fy f end
                 = fy f + snd (arrow_vec dir) * s) by (intros s; destruct dir; cbn; ring).
  unfold moveFigureWithArrow. rewrite Hs, Hg. cbv zeta. rewrite Hx, Hy.
  split; [reflexivity|].
  split.
  - unfold saveFigureUpdate. cbn [run]. rewrite save_update_reply_store.
    rewrite store_of_showMessage. erewrite store_of_updateFigurePosition by exact Hg.
    apply get_set_same.
  - split; [intros H; apply clamp_range, H|].
    split; [intros H; apply clamp_range, H|].
    split; intros H; apply clamp_id, H.
Qed.

Lemma arrow_nudge_witness :
  stepSize (mkMods false true false) = 1/2 /\
  length (requests (Reply "error") (moveFigureWithArrow dragging_session ArrowRight (mkMods true false false))) = 1%nat /\
  get (store_of (run (Reply "error") (moveFigureWithArrow dragging_session ArrowRight (mkMods true false false))))
    "F" = Some (Figure (with_center (mkFigure "ok" 10 10 Circle 20 None "t0")
                   (clamp 0 200 (10 + 1 * 10)) (clamp 0 200 (10 + 0 * 10)))).
Proof.
  destruct arrow_nudge as (_ & _ & H3 & H4).
  split; [apply H3; [reflexivity | left; reflexivity]|].
  destruct (H4 dragging_session ArrowRight (mkMods true false false) (Reply "error") "F"%string
    (mkFigure "ok" 10 10 Circle 20 None "t0") eq_refl eq_refl) as (Hr & Hst & _).
  split; [rewrite Hr; reflexivity | exact Hst].
Defined.


(* ================================================================== *)
(** * Further properties of the view and of the history *)

(** Extra: [resetView] shows the image at scale 1, centred along each axis
    where it is smaller than the container and pinned to the container's
    left (top) edge where it is not. *)
Lemma resetView_centres : forall v cw ch,
  let r := resetView v cw ch in
  currentZoom r = 1 /\
  (naturalWidth v < cw -> px (imageToDisplayCoords r (mkPoint (naturalWidth v / 2) 0)) = cw / 2) /\
  (cw <= naturalWidth v -> translateX r = 0) /\
  (naturalHeight v < ch -> py (imageToDisplayCoords r (mkPoint 0 (naturalHeight v / 2))) = ch / 2) /\
  (ch <= naturalHeight v -> translateY r = 0).
Proof.
  intros v cw ch r. unfold r, resetView, with_zoom, imageToDisplayCoords; cbn.
  split; [reflexivity|].
  destruct (Rlt_dec (naturalWidth v * 1) cw) as [Hw|Hw];
  destruct (Rlt_dec (naturalHeight v * 1) ch) as [Hh|Hh];
  repeat split; intros H; try field; lra.
Qed.

(** Extra: on a consistent history, [redo] takes back an [undo] that moved
    the cursor, and [undo] takes back a [redo] that moved it. *)
Lemma undo_redo_inverse : forall h, hist_inv h ->
  ((0 < historyIndex h)%Z -> exists h', undo h = Some h' /\ redo h' = Some h) /\
  ((historyIndex h < Z.of_nat (length (history h)) - 1)%Z ->
     exists h', redo h = Some h' /\ undo h' = Some h).
Proof.
  intros [a hs i] (Hl & Hi & Hn); cbn [history historyIndex annotations] in *.
  split; intros Hp.
  - unfold undo; cbn. destruct (Z.ltb_spec 0 i) as [_|]; [|lia].
    destruct (nth_error hs (Z.to_nat (i - 1))) as [s|] eqn:E.
    + eexists; split; [reflexivity|].
      unfold redo; cbn. destruct (Z.ltb_spec (i - 1) (Z.of_nat (length hs) - 1)) as [_|]; [|lia].
      replace (i - 1 + 1)%Z with i by lia. rewrite Hn. reflexivity.
    + apply nth_error_None in E. lia.
  - unfold redo; cbn. destruct (Z.ltb_spec i (Z.of_nat (length hs) - 1)) as [_|]; [|lia].
    destruct (nth_error hs (Z.to_nat (i + 1))) as [s|] eqn:E.
    + eexists; split; [reflexivity|].
      unfold undo; cbn. destruct (Z.ltb_spec 0 (i + 1)) as [_|]; [|lia].
      replace (i + 1 - 1)%Z with i by lia. rewrite Hn. reflexivity.
    + apply nth_error_None in E. lia.
Qed.

Lemma undo_redo_inverse_witness :
  let h := mkH [] [[]; []; [("a"%string, Landmark "ok" None "t")]] 1 in
  (exists h', undo h = Some h' /\ redo h' = Some h) /\
  (exists h', redo h = Some h' /\ undo h' = Some h).
Proof.
  intros h.
  assert (Hh : hist_inv h) by (unfold hist_inv, h; cbn; split; [lia | split; [lia | reflexivity]]).
  destruct (undo_redo_inverse h Hh) as [H1 H2].
  split; [apply H1 | apply H2]; unfold h; cbn; lia.
Defined.

Lemma save_prev : forall h s, hist_inv h ->
  let h2 := saveToHistory (mkH s (history h) (historyIndex h)) in
  (1 <= historyIndex h2)%Z /\
  nth_error (history h2) (Z.to_nat (historyIndex h2 - 1)) = Some (annotations h).
Proof.
  intros [a hs i] s (Hl & Hi & Hn); cbn [history historyIndex annotations] in *.
  unfold saveToHistory, maxHistorySize; cbn [history historyIndex annotations].
  destruct (Z.ltb_spec i (Z.of_nat (length hs) - 1)) as [Hlt | Hge].
  - assert (Hlen : length (firstn (Z.to_nat (i + 1)) hs) = Z.to_nat (i + 1)).
    { rewrite length_firstn. lia. }
    rewrite Z.gtb_ltb.
    destruct (Z.ltb_spec 50 (Z.of_nat (length (firstn (Z.to_nat (i + 1)) hs ++ [s])))) as [Hb | Hb];
      rewrite length_app in Hb; simpl in Hb; [lia|].
    cbn [history historyIndex]. split; [lia|].
    replace (Z.to_nat (i + 1 - 1)) with (Z.to_nat i) by lia.
    rewrite nth_error_app1 by lia. rewrite nth_error_firstn.
    destruct (Nat.ltb_spec (Z.to_nat i) (Z.to_nat (i + 1))) as [_|]; [exact Hn | lia].
  - rewrite Z.gtb_ltb.
    destruct (Z.ltb_spec 50 (Z.of_nat (length (hs ++ [s])))) as [Hb | Hb];
      rewrite length_app in Hb; simpl in Hb.
    + assert (HL : length hs = 50%nat) by lia.
      destruct hs as [|s0 hs']; simpl in HL; [lia|].
      cbn [history historyIndex tl app]. split; [lia|].
      destruct (Z.to_nat i) as [|k] eqn:Ei; [lia|].
      replace (Z.to_nat (i - 1)) with k by lia.
      rewrite nth_error_app1 by lia. exact Hn.
    + cbn [history historyIndex]. split; [lia|].
      replace (Z.to_nat (i + 1 - 1)) with (Z.to_nat i) by lia.
      rewrite nth_error_app1 by lia. exact Hn.
Qed.

Lemma save_undo_redo : forall h s, hist_inv h ->
  let h2 := saveToHistory (mkH s (history h) (historyIndex h)) in
  exists h3, undo h2 = Some h3 /\ annotations h3 = annotations h /\ redo h3 = Some h2.
Proof.
  intros h s Hh h2.
  destruct (save_prev h s Hh) as [H1 H2]. fold h2 in H1, H2.
  destruct (save_newest (mkH s (history h) (historyIndex h))) as ((_ & _ & Hn) & _ & Hlast);
    [destruct Hh as (? & ? & _); cbn; lia | destruct Hh as (? & ? & _); cbn; lia |].
  fold h2 in Hn, Hlast.
  clearbody h2. destruct h2 as [a2 hs2 i2]; cbn [history historyIndex annotations] in *.
  unfold undo; cbn. destruct (Z.ltb_spec 0 i2) as [_|]; [|lia].
  rewrite H2. eexists; split; [reflexivity|]. split; [reflexivity|].
  unfold redo; cbn. destruct (Z.ltb_spec (i2 - 1) (Z.of_nat (length hs2) - 1)) as [_|]; [|lia].
  replace (i2 - 1 + 1)%Z with i2 by lia. rewrite Hn. reflexivity.
Qed.

(** Extra: a mutation saved with [saveToHistory] can be undone: [undo]
    brings back the Store as it was before the mutation, and [redo] then
    returns to the state just saved. *)
Lemma save_then_undo : forall h s, hist_inv h ->
  let h2 := saveToHistory (mkH s (history h) (historyIndex h)) in
  exists h3, undo h2 = Some h3 /\ annotations h3 = annotations h /\ redo h3 = Some h2.
Proof. exact save_undo_redo. Qed.

Lemma save_then_undo_witness :
  let h := mkH [] [[]] 0 in
  exists h3, undo (saveToHistory (mkH [("a"%string, Landmark "ok" None "t")] (history h) (historyIndex h))) = Some h3 /\
    annotations h3 = annotations h /\
    redo h3 = Some (saveToHistory (mkH [("a"%string, Landmark "ok" None "t")] (history h) (historyIndex h))).
Proof.
  intros h. apply save_then_undo.
  unfold hist_inv, h; cbn. split; [lia | split; [lia | reflexivity]].
Defined.

(* ================================================================== *)
(** * Further properties of the annotation operations *)

Lemma get_remove_same : forall s k, get (remove s k) k = None.
Proof.
  induction s as [|[k' a'] s IH]; intros k; simpl; [reflexivity|].
  destruct (String.eqb_spec k k') as [->|Hne]; [apply IH|].
  simpl. destruct (String.eqb_spec k k'); [congruence | apply IH].
Qed.

Lemma get_remove_other : forall s k m, m <> k -> get (remove s k) m = get s m.
Proof.
  induction s as [|[k' a'] s IH]; intros k m Hm; simpl; [reflexivity|].
  destruct (String.eqb_spec k k') as [->|Hne].
  - destruct (String.eqb_spec m k'); [congruence | apply IH, Hm].
  - simpl. destruct (String.eqb_spec m k'); [reflexivity | apply IH, Hm].
Qed.

Lemma delete_success_world : forall w name,
  let w' := run (Reply "success") (deleteAnnotation w true name) in
  doc w' = saveToHistory (mkH (remove (store_of w) name) (history (doc w)) (historyIndex (doc w))) /\
  store_of w' = remove (store_of w) name /\
  selectedLabel w' = match selectedLabel w with
                     | Some l => if String.eqb l name then None else Some l
                     | None => None
                     end.
Proof.
  intros w name w'. unfold w', deleteAnnotation; cbn [negb run]. rewrite on_reply_success.
  cbn [selectedLabel set_store set_doc].
  destruct (selectedLabel w) as [l|] eqn:Hs; [destruct (String.eqb l name)|];
    (split; [reflexivity|]; split; [rewrite store_of_showMessage, store_of_save; reflexivity |
      unfold showMessage, saveToHistoryW, set_store, set_doc, set_selectedLabel; cbn [selectedLabel]; rewrite ?Hs; reflexivity]).
Qed.

(** Extra: [deleteAnnotation] does nothing when the dialog is declined.
    When confirmed it sends one removal request (to the landmarks endpoint
    for a name with no record).  On success the name's record is gone,
    every other record is unchanged, and the selection is cleared only if
    it was that name.  On a failure the Store is unchanged. *)
Lemma deleteAnnotation_effect : forall w name r,
  (run r (deleteAnnotation w false name) = w /\ requests r (deleteAnnotation w false name) = []) /\
  (get (store_of w) name = None ->
     requests r (deleteAnnotation w true name) = [mkReq "landmarks" name BRemove]) /\
  (let w' := run (Reply "success") (deleteAnnotation w true name) in
   get (store_of w') name = None /\
   (forall m, m <> name -> get (store_of w') m = get (store_of w) m) /\
   (selectedLabel w = Some name -> selectedLabel w' = None) /\
   (selectedLabel w <> Some name -> selectedLabel w' = selectedLabel w)) /\
  (failed r -> store_of (run r (deleteAnnotation w true name)) = store_of w).
Proof.
  intros w name r. split; [split; reflexivity|].
  split; [intros Hg; unfold deleteAnnotation; cbn [negb requests]; rewrite Hg; reflexivity|].
  split.
  - intros w'. destruct (delete_success_world w name) as (_ & Hs & Hsel). fold w' in Hs, Hsel.
    rewrite Hs. split; [apply get_remove_same|].
    split; [intros m Hm; apply get_remove_other, Hm|].
    rewrite Hsel. split.
    + intros ->. rewrite String.eqb_refl. reflexivity.
    + intros Hne. destruct (selectedLabel w) as [l|]; [|reflexivity].
      destruct (String.eqb_spec l name); [congruence | reflexivity].
  - intros Hf. unfold deleteAnnotation; cbn [negb run]. apply on_reply_failed_store, Hf.
Qed.

(** Extra: a deletion that succeeded can be undone: on a consistent
    history, [undo] after [deleteAnnotation] brings back the Store as it
    was before the deletion. *)
Lemma delete_then_undo : forall w name, hist_inv (doc w) ->
  exists h, undo (doc (run (Reply "success") (deleteAnnotation w true name))) = Some h /\
            annotations h = store_of w.
Proof.
  intros w name Hh.
  destruct (delete_success_world w name) as (Hd & _ & _). rewrite Hd.
  destruct (save_undo_redo (doc w) (remove (store_of w) name) Hh) as (h3 & Hu & Ha & _).
  exists h3. split; [exact Hu | exact Ha].
Qed.

Lemma delete_then_undo_witness :
  exists h, undo (doc (run (Reply "success") (deleteAnnotation drag_session true "F"))) = Some h /\
            annotations h = store_of drag_session.
Proof.
  apply delete_then_undo. unfold hist_inv; cbn. split; [lia | split; [lia | reflexivity]].
Defined.

(** Extra: [selectLabel] selects the name and turns annotation mode on,
    leaving the Store alone.  Outside the polygon tool the transient
    vertices are untouched.  In the polygon tool, selecting a stored
    polygon loads its vertices in the edit sub-tool, and completing the
    polygon right away (it has at least 3 vertices) stores the same vertices
    again under that name. *)
Lemma selectLabel_loads_polygon : forall w name,
  let w1 := selectLabel w name in
  selectedLabel w1 = Some name /\ isAnnotationMode w1 = true /\ store_of w1 = store_of w /\
  (currentTool w <> TPolygon -> poly w1 = poly w) /\
  (forall st pts ts now, currentTool w = TPolygon ->
     get (store_of w) name = Some (Polygon st pts ts) ->
     activePolygonPoints (poly w1) = pts /\ polygonTool (poly w1) = PEdit /\
     ((3 <= length pts)%nat ->
        requests (Reply "success") (completePolygon w1 now) = [mkReq "segments" name (BPolygon pts)] /\
        get (store_of (run (Reply "success") (completePolygon w1 now))) name =
          Some (Polygon "ok" pts now))).
Proof.
  intros w name w1.
  assert (E : exists w2 msg, w1 = showMessage (if isAnnotationMode w2 then w2 else set_isAnnotationMode w2 true)
                msg Info /\
              selectedLabel w2 = Some name /\ store_of w2 = store_of w /\
              (currentTool w <> TPolygon -> poly w2 = poly w) /\
              (forall st pts ts, currentTool w = TPolygon -> get (store_of w) name = Some (Polygon st pts ts) ->
                 poly w2 = mkPoly pts PEdit)).
  { unfold w1, selectLabel. cbv zeta. do 2 eexists. split; [reflexivity|].
    change (store_of (set_selectedLabel w (Some name))) with (store_of w).
    change (currentTool (set_selectedLabel w (Some name))) with (currentTool w).
    destruct (get (store_of w) name) as [a|] eqn:Hg; [destruct a|]; destruct (currentTool w) eqn:Ht;
      (split; [reflexivity|]); (split; [reflexivity|]);
      (split; [intros Hne; try reflexivity; congruence|]);
      intros st0 pts0 ts0 Ht' Hg'; try discriminate; inversion Hg'; reflexivity. }
  destruct E as (w2 & msg & -> & Hsel & Hst & Hother & Hpoly).
  assert (Hs3 : store_of (if isAnnotationMode w2 then w2 else set_isAnnotationMode w2 true) = store_of w)
    by (destruct (isAnnotationMode w2); exact Hst).
  assert (Hl3 : selectedLabel (if isAnnotationMode w2 then w2 else set_isAnnotationMode w2 true) = Some name)
    by (destruct (isAnnotationMode w2); exact Hsel).
  assert (Hp3 : poly (if isAnnotationMode w2 then w2 else set_isAnnotationMode w2 true) = poly w2)
    by (destruct (isAnnotationMode w2); reflexivity).
  split; [exact Hl3|].
  split; [destruct (isAnnotationMode w2) eqn:Hm; [exact Hm | reflexivity]|].
  split; [exact Hs3|].
  split; [intros Hne; cbn [poly showMessage]; rewrite Hp3; apply Hother, Hne|].
  intros st pts ts now Ht Hg.
  assert (Hp : poly (showMessage (if isAnnotationMode w2 then w2 else set_isAnnotationMode w2 true)
                  msg Info) = mkPoly pts PEdit)
    by (cbn [poly showMessage]; rewrite Hp3; apply (Hpoly st pts ts Ht Hg)).
  rewrite Hp. split; [reflexivity|]. split; [reflexivity|].
  intros H3. unfold completePolygon. rewrite Hp. cbn [activePolygonPoints].
  assert (Hn : Nat.ltb (length pts) 3 = false) by (apply Nat.ltb_ge; exact H3).
  rewrite Hn. cbv zeta.
  change (selectedLabel (showMessage ?x ?t ?k)) with (selectedLabel x). rewrite Hl3. cbn [label_key].
  cbn [requests run]. split; [reflexivity|]. rewrite on_reply_success.
  unfold set_polygonTool. autorewrite with session.
  apply get_set_same.
Qed.

Lemma selectLabel_loads_polygon_witness :
  let w := session [("P"%string, Polygon "ok" [mkPoint 1 1; mkPoint 5 1; mkPoint 1 5] "t0")]
             false TPolygon None Circle in
  activePolygonPoints (poly (selectLabel w "P")) = [mkPoint 1 1; mkPoint 5 1; mkPoint 1 5] /\
  polygonTool (poly (selectLabel w "P")) = PEdit /\
  ((3 <= length [mkPoint 1 1; mkPoint 5 1; mkPoint 1 5])%nat ->
     requests (Reply "success") (completePolygon (selectLabel w "P") "t1") =
       [mkReq "segments" "P" (BPolygon [mkPoint 1 1; mkPoint 5 1; mkPoint 1 5])] /\
     get (store_of (run (Reply "success") (completePolygon (selectLabel w "P") "t1"))) "P" =
       Some (Polygon "ok" [mkPoint 1 1; mkPoint 5 1; mkPoint 1 5] "t1")).
Proof.
  intros w.
  destruct (selectLabel_loads_polygon w "P") as (_ & _ & _ & _ & H).
  apply (H "ok"%string [mkPoint 1 1; mkPoint 5 1; mkPoint 1 5] "t0"%string "t1"%string);
    reflexivity.
Defined.

(** Extra: [switchTool] sets the tool and clears the selected label,
    leaving the Store alone.  Switching to any tool but the polygon tool
    empties the transient vertex list; switching to the polygon tool keeps
    it.  In annotation mode, the next press on the image then only warns
    "Please select a label first": no request is made and the Store is
    unchanged. *)
Lemma switchTool_clears_selection : forall w t,
  let w1 := switchTool w t in
  currentTool w1 = t /\ selectedLabel w1 = None /\ store_of w1 = store_of w /\
  (t <> TPolygon -> activePolygonPoints (poly w1) = []) /\
  (t = TPolygon -> poly w1 = poly w) /\
  (forall m now r, isAnnotationMode w = true ->
     requests r (handleMouseDown w1 m now) = [] /\
     store_of (run r (handleMouseDown w1 m now)) = store_of w /\
     messages (run r (handleMouseDown w1 m now)) =
       messages w1 ++ [("Please select a label first"%string, Warning)]).
Proof.
  intros w t w1.
  split; [unfold w1, switchTool; destruct t; reflexivity|].
  split; [reflexivity|].
  split; [unfold w1, switchTool; destruct t; reflexivity|].
  split; [intros Hne; unfold w1, switchTool; destruct t; [reflexivity | congruence | reflexivity]|].
  split; [intros ->; reflexivity|].
  intros m now r Ha.
  assert (Hm : isAnnotationMode w1 = true) by (unfold w1, switchTool; destruct t; exact Ha).
  unfold handleMouseDown. cbn [isAnnotationMode selectedLabel set_drag]. rewrite Hm.
  replace (selectedLabel w1) with (@None string) by reflexivity.
  cbn [requests run]. split; [reflexivity|].
  split; [|reflexivity].
  autorewrite with session. unfold w1, switchTool; destruct t; reflexivity.
Qed.

(* ================================================================== *)
(** * Properties of the polygon editor *)

Module PolygonEditorFacts.
Import PolygonEditor.

Lemma nth_error_snoc : forall (l : list point) p j q,
  nth_error (l ++ [p]) j = Some q ->
  ((j < length l)%nat /\ nth_error l j = Some q) \/ (j = length l /\ q = p).
Proof.
  intros l p j q H.
  destruct (Nat.lt_ge_cases j (length l)) as [Hl|Hl].
  - left. split; [exact Hl|]. rewrite nth_error_app1 in H by exact Hl. exact H.
  - right. rewrite nth_error_app2 in H by exact Hl.
    destruct (j - length l)%nat as [|k] eqn:E; cbn in H.
    + split; [lia | congruence].
    + destruct k; discriminate.
Qed.


Lemma nearest_inv_step : forall th c pre best p,
  nearest_inv th c pre best ->
  nearest_inv th c (pre ++ [p])
    (if Rlt_dec (pdist p c) th
     then if match snd best with
             | None => true
             | Some b => if Rlt_dec (pdist p c) b then true else false
             end then (Z.of_nat (length pre), Some (pdist p c)) else best
     else best).
Proof.
  intros th c pre best p [(-> & Hall) | (i & pi & -> & Hi & Hth & Hlt & Hle)];
    cbn [snd]; destruct (Rlt_dec (pdist p c) th) as [Hd|Hd].
  - right. exists (length pre), p. split; [reflexivity|].
    split; [rewrite nth_error_app2, Nat.sub_diag by lia; reflexivity|].
    split; [exact Hd|]. split.
    + intros j q Hj Hjl. destruct (nth_error_snoc pre p j q Hj) as [(_ & Hq) | (-> & _)]; [|lia].
      apply nth_error_In in Hq. specialize (Hall q Hq). lra.
    + intros j q Hj. destruct (nth_error_snoc pre p j q Hj) as [(_ & Hq) | (_ & ->)]; [|lra].
      apply nth_error_In in Hq. specialize (Hall q Hq). lra.
  - left. split; [reflexivity|]. intros q Hq. apply in_app_or in Hq as [Hq | [<- | []]];
      [apply Hall, Hq | lra].
  - assert (Hil : (i < length pre)%nat) by (apply nth_error_Some; congruence).
    destruct (Rlt_dec (pdist p c) (pdist pi c)) as [Hc|Hc].
    + right. exists (length pre), p. split; [reflexivity|].
      split; [rewrite nth_error_app2, Nat.sub_diag by lia; reflexivity|].
      split; [exact Hd|]. split.
      * intros j q Hj Hjl. destruct (nth_error_snoc pre p j q Hj) as [(_ & Hq) | (-> & _)]; [|lia].
        specialize (Hle j q Hq). lra.
      * intros j q Hj. destruct (nth_error_snoc pre p j q Hj) as [(_ & Hq) | (_ & ->)]; [|lra].
        specialize (Hle j q Hq). lra.
    + right. exists i, pi. split; [reflexivity|].
      split; [rewrite nth_error_app1 by exact Hil; exact Hi|].
      split; [exact Hth|]. split.
      * intros j q Hj Hjl. destruct (nth_error_snoc pre p j q Hj) as [(_ & Hq) | (-> & _)]; [|lia].
        apply (Hlt j q Hq Hjl).
      * intros j q Hj. destruct (nth_error_snoc pre p j q Hj) as [(_ & Hq) | (_ & ->)];
          [apply (Hle j q Hq) | lra].
  - right. exists i, pi. split; [reflexivity|].
    assert (Hil : (i < length pre)%nat) by (apply nth_error_Some; congruence).
    split; [rewrite nth_error_app1 by exact Hil; exact Hi|].
    split; [exact Hth|]. split.
    + intros j q Hj Hjl. destruct (nth_error_snoc pre p j q Hj) as [(_ & Hq) | (-> & _)]; [|lia].
      apply (Hlt j q Hq Hjl).
    + intros j q Hj. destruct (nth_error_snoc pre p j q Hj) as [(_ & Hq) | (_ & ->)];
        [apply (Hle j q Hq) | lra].
Qed.

Lemma nearest_from_inv : forall th c pts pre best,
  nearest_inv th c pre best ->
  nearest_inv th c (pre ++ pts) (nearest_from th c pts (length pre) best).
Proof.
  intros th c pts. induction pts as [|p rest IH]; intros pre best H; cbn [nearest_from].
  - rewrite app_nil_r. exact H.
  - replace (pre ++ p :: rest) with ((pre ++ [p]) ++ rest) by (rewrite <- app_assoc; reflexivity).
    replace (S (length pre)) with (length (pre ++ [p])) by (rewrite length_app; cbn; lia).
    apply IH, nearest_inv_step, H.
Qed.

Lemma findNearest_char : forall s c,
  let pts := activePolygonPoints s in
  let th := 10 / currentZoom s in
  (findNearestPointIndex s c = (-1)%Z /\ forall p, In p pts -> th <= pdist p c) \/
  (exists i p, findNearestPointIndex s c = Z.of_nat i /\ nth_error pts i = Some p /\
     pdist p c < th /\
     (forall j q, nth_error pts j = Some q -> (j < i)%nat -> pdist p c < pdist q c) /\
     (forall j q, nth_error pts j = Some q -> pdist p c <= pdist q c)).
Proof.
  intros s c pts th. unfold findNearestPointIndex. fold pts th.
  assert (H0 : nearest_inv th c [] ((-1)%Z, None)) by (left; split; [reflexivity | intros p []]).
  pose proof (nearest_from_inv th c pts [] _ H0) as Hn. cbn [length app] in Hn.
  destruct Hn as [(-> & Hall) | (i & p & -> & Hi)];
    [left; split; [reflexivity | exact Hall] | right; exists i, p; split; [reflexivity | exact Hi]].
Qed.

(** Extra: [findNearestPointIndex] returns -1 exactly when no vertex lies
    closer to the pointer than [10 / currentZoom]; otherwise it returns the
    index of a vertex within that distance that is no farther than any
    other vertex and strictly nearer than every vertex before it (the
    first of the nearest vertices). *)
Lemma findNearest_spec : forall s c,
  let pts := activePolygonPoints s in
  let th := 10 / currentZoom s in
  (findNearestPointIndex s c = (-1)%Z /\ forall p, In p pts -> th <= pdist p c) \/
  (exists i p, findNearestPointIndex s c = Z.of_nat i /\ nth_error pts i = Some p /\
     pdist p c < th /\
     (forall j q, nth_error pts j = Some q -> (j < i)%nat -> pdist p c < pdist q c) /\
     (forall j q, nth_error pts j = Some q -> pdist p c <= pdist q c)).
Proof. exact findNearest_char. Qed.

Lemma length_list_replace : forall l i x, (i < length l)%nat -> length (list_replace l i x) = length l.
Proof.
  intros l i x H. unfold list_replace. rewrite length_app, length_firstn. cbn [length].
  rewrite length_skipn. lia.
Qed.

Lemma nth_error_list_replace : forall l i x j, (i < length l)%nat ->
  nth_error (list_replace l i x) j = if Nat.eqb j i then Some x else nth_error l j.
Proof.
  intros l i x j H. unfold list_replace.
  assert (Hf : length (firstn i l) = i) by (rewrite length_firstn; lia).
  destruct (Nat.lt_trichotomy j i) as [Hj | [-> | Hj]].
  - rewrite nth_error_app1 by lia. rewrite nth_error_firstn.
    destruct (Nat.eqb_spec j i); [lia|]. destruct (Nat.ltb_spec j i); [reflexivity | lia].
  - rewrite nth_error_app2 by lia. rewrite Hf, Nat.sub_diag, Nat.eqb_refl. reflexivity.
  - rewrite nth_error_app2 by lia. rewrite Hf.
    destruct (j - i)%nat as [|k] eqn:E; [lia|]. cbn [nth_error].
    rewrite nth_error_skipn. destruct (Nat.eqb_spec j i); [lia|]. f_equal. lia.
Qed.

(** While a vertex is dragged in the edit sub-tool, every move writes the
    pointer into the vertex's slot. *)
Lemma edit_moves : forall ms i pts st z,
  (i < length pts)%nat ->
  pointer_moves (mkPS pts PEdit (Z.of_nat i) true st z) ms =
  Some (mkPS (fold_left (fun l m => list_replace l i m) ms pts) PEdit (Z.of_nat i) true st z).
Proof.
  induction ms as [|m ms IH]; intros i pts st z H; [reflexivity|].
  cbn [pointer_moves pointer_move polygonDragging].
  unfold handlePolygonDrag. cbn [activePolygonPoints selectedPointIndex polygonTool].
  replace (Z.of_nat i =? -1)%Z with false by lia.
  replace ((0 <=? Z.of_nat i)%Z && (Z.of_nat i <? Z.of_nat (length pts))%Z) with true by lia.
  cbn [andb negb polygonTool polygonDragging polygonMoveStart currentZoom selectedPointIndex].
  rewrite Nat2Z.id. cbn [fold_left]. apply IH. rewrite length_list_replace; exact H.
Qed.

Lemma fold_list_replace : forall ms i pts c,
  (i < length pts)%nat ->
  let r := fold_left (fun l m => list_replace l i m) ms pts in
  length r = length pts /\
  (ms <> [] -> nth_error r i = Some (last ms c)) /\
  (forall j, j <> i -> nth_error r j = nth_error pts j).
Proof.
  induction ms as [|m ms IH]; intros i pts c H r.
  - split; [reflexivity|]. split; [intros []; reflexivity | reflexivity].
  - unfold r; cbn [fold_left].
    destruct (IH i (list_replace pts i m) c) as (Hl & Hn & Ho); [rewrite length_list_replace; exact H|].
    split; [rewrite Hl; apply length_list_replace, H|].
    split.
    + intros _. destruct ms as [|m' ms'].
      * cbn. rewrite nth_error_list_replace, Nat.eqb_refl by exact H. reflexivity.
      * rewrite Hn by discriminate. reflexivity.
    + intros j Hj. rewrite Ho by exact Hj. rewrite nth_error_list_replace by exact H.
      destruct (Nat.eqb_spec j i); [contradiction | reflexivity].
Qed.

(** Extra: in the edit sub-tool, a press near a vertex, a non-empty
    sequence of moves and a release leave the vertex at the last pointer
    position and every other vertex where it was, and end the drag.  A
    press that finds no vertex (with no drag in progress) leaves all the
    vertices where they were. *)
Lemma edit_gesture_moves_vertex : forall s c ms,
  polygonTool s = PEdit ->
  (forall i, findNearestPointIndex s c = Z.of_nat i -> ms <> [] ->
     exists s', press_drag_release s c ms = Some s' /\
       length (activePolygonPoints s') = length (activePolygonPoints s) /\
       nth_error (activePolygonPoints s') i = Some (last ms c) /\
       (forall j, j <> i -> nth_error (activePolygonPoints s') j = nth_error (activePolygonPoints s) j) /\
       polygonDragging s' = false /\ selectedPointIndex s' = (-1)%Z) /\
  (polygonDragging s = false -> findNearestPointIndex s c = (-1)%Z ->
     exists s', press_drag_release s c ms = Some s' /\
       activePolygonPoints s' = activePolygonPoints s /\ polygonDragging s' = false).
Proof.
  intros [pts tl idx dr st z] c ms Ht; cbn [polygonTool activePolygonPoints polygonDragging] in *; subst tl.
  split.
  - intros i Hi Hne.
    assert (Hil : (i < length pts)%nat).
    { destruct (findNearest_char (mkPS pts PEdit idx dr st z) c) as [(Hm & _) | (i' & p & Hm & Hn & _)];
        rewrite Hi in Hm; [lia|].
      apply Nat2Z.inj in Hm. subst i'. apply nth_error_Some. cbn in Hn. congruence. }
    unfold press_drag_release, handlePolygonClick. cbn [polygonTool]. rewrite Hi.
    replace (Z.of_nat i =? -1)%Z with false by lia.
    cbn [activePolygonPoints polygonMoveStart currentZoom].
    rewrite edit_moves by exact Hil.
    destruct (fold_list_replace ms i pts c Hil) as (Hl & Hn & Ho).
    eexists; split; [reflexivity|]. cbn [pointer_up activePolygonPoints polygonDragging selectedPointIndex].
    split; [exact Hl|]. split; [apply Hn, Hne|]. split; [exact Ho|]. split; reflexivity.
  - intros Hd Hm. subst dr.
    unfold press_drag_release, handlePolygonClick. cbn [polygonTool]. rewrite Hm. cbn [Z.eqb].
    assert (Hs : forall ms', pointer_moves (mkPS pts PEdit (-1) false st z) ms' = Some (mkPS pts PEdit (-1) false st z))
      by (induction ms' as [|m' ms' IH']; [reflexivity | exact IH']).
    cbn [polygonDragging polygonMoveStart currentZoom activePolygonPoints]. rewrite Hs.
    eexists; split; [reflexivity|]. split; reflexivity.
Qed.

Lemma flat_map_single : forall (f : nat -> list (point * point)) g l,
  (forall i, f i = [g i]) -> flat_map f l = map g l.
Proof. intros f g l H. induction l as [|i l IH]; cbn; [reflexivity | rewrite H, IH; reflexivity]. Qed.

(** Extra: [renderActivePolygon] draws an open path through one or two
    transient vertices (no segment for one vertex) and, from three
    vertices on, the closed polygon: each vertex joined to the next, and
    the last one back to the first. *)
Lemma activePolygonLines_shape : forall pts,
  activePolygonLines pts =
  combine pts (tl pts ++ (if Nat.leb 3 (length pts) then firstn 1 pts else [])).
Proof.
  intros pts. destruct pts as [|p0 [|p1 [|p2 rest]]]; [reflexivity | reflexivity | reflexivity |].
  unfold activePolygonLines. cbv beta iota zeta.
  set (l := p0 :: p1 :: p2 :: rest).
  assert (Hn : (3 <= length l)%nat) by (cbn; lia).
  replace (Nat.leb 3 (length l)) with true by (symmetry; apply Nat.leb_le, Hn).
  rewrite (flat_map_single _ (fun i => (nth i l p0, nth ((i + 1) mod length l) l p0))).
  2: { intros i. rewrite Bool.orb_true_r. reflexivity. }
  apply nth_ext with (d := (p0, p0)) (d' := (p0, p0)).
  - rewrite length_map, length_seq, length_combine, length_app. unfold l; cbn [tl firstn length app]. lia.
  - intros i Hi. rewrite length_map, length_seq in Hi.
    assert (Hm : forall (g : nat -> point * point) d, nth i (map g (seq 0 (length l))) d = g i).
    { intros g d. rewrite nth_indep with (d' := g 0%nat) by (rewrite length_map, length_seq; exact Hi).
      rewrite map_nth, seq_nth by exact Hi. reflexivity. }
    rewrite Hm.
    rewrite combine_nth by (rewrite length_app; unfold l; cbn [tl firstn length app]; lia).
    f_equal.
    destruct (Nat.lt_ge_cases (i + 1) (length l)) as [Hs | Hs].
    + rewrite Nat.mod_small by exact Hs.
      rewrite app_nth1 by (unfold l in *; cbn [tl length] in *; lia).
      replace (i + 1)%nat with (S i) by lia. reflexivity.
    + assert (Hi1 : (i + 1)%nat = length l) by lia. rewrite Hi1, Nat.Div0.mod_same.
      rewrite app_nth2 by (unfold l in *; cbn [tl length] in *; lia).
      replace (i - length (tl l))%nat with 0%nat by (unfold l in *; cbn [tl length] in *; lia). reflexivity.
Qed.

Lemma edit_gesture_moves_vertex_witness :
  let s := mkPS [mkPoint 0 0; mkPoint 100 0; mkPoint 0 100] PEdit (-1) false None 1 in
  (forall i, findNearestPointIndex s (mkPoint 1 1) = Z.of_nat i -> [mkPoint 5 5] <> [] ->
     exists s', press_drag_release s (mkPoint 1 1) [mkPoint 5 5] = Some s' /\
       length (activePolygonPoints s') = length (activePolygonPoints s) /\
       nth_error (activePolygonPoints s') i = Some (last [mkPoint 5 5] (mkPoint 1 1)) /\
       (forall j, j <> i -> nth_error (activePolygonPoints s') j = nth_error (activePolygonPoints s) j) /\
       polygonDragging s' = false /\ selectedPointIndex s' = (-1)%Z) /\
  (polygonDragging s = false -> findNearestPointIndex s (mkPoint 1 1) = (-1)%Z ->
     exists s', press_drag_release s (mkPoint 1 1) [mkPoint 5 5] = Some s' /\
       activePolygonPoints s' = activePolygonPoints s /\ polygonDragging s' = false).
Proof.
  intros s. apply edit_gesture_moves_vertex. reflexivity.
Defined.

End PolygonEditorFacts.

(* ================================================================== *)
(** * Properties of the label list initialisation *)

Lemma label_set_keys : forall m k v x,
  In x (map fst (label_set m k v)) <-> x = k \/ In x (map fst m).
Proof.
  induction m as [|[k' v'] m IH]; intros k v x; cbn [label_set map fst].
  - cbn. split; [intros [-> | []]; left; reflexivity | intros [-> | []]; left; reflexivity].
  - destruct (String.eqb_spec k k') as [-> | Hne]; cbn [map fst In].
    + split; [intros H; right; exact H | intros [-> | H]; [left; reflexivity | exact H]].
    + rewrite IH. tauto.
Qed.

Lemma label_set_in : forall m k v kv, In kv (label_set m k v) -> kv = (k, v) \/ In kv m.
Proof.
  induction m as [|[k' v'] m IH]; intros k v kv H; cbn [label_set] in H.
  - destruct H as [<- | []]. left; reflexivity.
  - destruct (String.eqb_spec k k') as [-> | Hne]; destruct H as [<- | H].
    + left; reflexivity.
    + right; right; exact H.
    + right; left; reflexivity.
    + destruct (IH k v kv H) as [-> | H']; [left; reflexivity | right; right; exact H'].
Qed.

Lemma label_set_nodup : forall m k v, NoDup (map fst m) -> NoDup (map fst (label_set m k v)).
Proof.
  induction m as [|[k' v'] m IH]; intros k v Hn; cbn [label_set].
  - constructor; [intros [] | constructor].
  - inversion Hn as [|? ? Hk Hm]; subst.
    destruct (String.eqb_spec k k') as [-> | Hne]; cbn [map fst].
    + constructor; assumption.
    + constructor; [|apply IH, Hm].
      rewrite label_set_keys. intros [-> | H]; [congruence | contradiction].
Qed.

Lemma label_has_spec : forall m k, label_has m k = true <-> In k (map fst m).
Proof.
  intros m k. unfold label_has. rewrite existsb_exists. split.
  - intros ([k' v] & Hin & Heq). apply String.eqb_eq in Heq. cbn in Heq. subst.
    apply in_map_iff. exists (k, v). split; [reflexivity | exact Hin].
  - intros H. apply in_map_iff in H as (kv & Heq & Hin).
    exists kv. split; [exact Hin | rewrite Heq; apply String.eqb_refl].
Qed.


(** The backend pass: every backend label keyed by its name. *)
Lemma backend_fold : forall L m,
  keyed m ->
  let m' := fold_left (fun m l => label_set m (lname l) l) L m in
  keyed m' /\
  (forall kv, In kv m' -> In kv m \/ In (snd kv) L) /\
  (forall x, In x (map fst m) -> In x (map fst m')) /\
  (forall l, In l L -> In (lname l) (map fst m')) /\
  (forall x, In x (map fst m') -> In x (map fst m) \/ In x (map lname L)).
Proof.
  induction L as [|l L IH]; intros m (Hk & Hn) m'; cbn [fold_left] in m'.
  - split; [split; assumption|]. split; [intros kv H; left; exact H|].
    split; [intros x H; exact H|]. split; [intros l []|]. intros x H; left; exact H.
  - assert (Hm1 : keyed (label_set m (lname l) l)).
    { split; [|apply label_set_nodup, Hn].
      intros kv H. apply label_set_in in H as [-> | H]; [reflexivity | apply Hk, H]. }
    destruct (IH _ Hm1) as (Hk' & Hin & Hmono & Hall & Hback). fold m' in Hk', Hin, Hmono, Hall, Hback.
    split; [exact Hk'|]. split.
    + intros kv H. destruct (Hin kv H) as [H1 | H1]; [|right; right; exact H1].
      apply label_set_in in H1 as [-> | H1]; [right; left; reflexivity | left; exact H1].
    + split; [intros x H; apply Hmono, label_set_keys; right; exact H|].
      split.
      * intros l' [<- | H]; [apply Hmono, label_set_keys; left; reflexivity | apply Hall, H].
      * intros x H. destruct (Hback x H) as [H1 | H1].
        -- apply label_set_keys in H1 as [-> | H1]; [right; left; reflexivity | left; exact H1].
        -- right; right; exact H1.
Qed.


(** The Store pass: a label is made for each stored name not yet present. *)
Lemma store_fold : forall (s : store) m,
  keyed m ->
  let m' := fold_left add_annotation_label s m in
  keyed m' /\
  (forall kv, In kv m' -> In kv m \/
     (exists a, In (fst kv, a) s /\ snd kv = mkLabel (fst kv) true 1 1 (annotation_type a) /\
                ~ In (fst kv) (map fst m))) /\
  (forall x, In x (map fst m) -> In x (map fst m')) /\
  (forall x, In x (map fst s) -> In x (map fst m')).
Proof.
  induction s as [|[name data] s IH]; intros m (Hk & Hn) m'; cbn [fold_left] in m'.
  - split; [split; assumption|]. split; [intros kv H; left; exact H|].
    split; [intros x H; exact H | intros x []].
  - set (m1 := add_annotation_label m (name, data)) in m'.
    assert (Hm1 : keyed m1 /\ (forall x, In x (map fst m) -> In x (map fst m1)) /\ In name (map fst m1) /\
      (forall kv, In kv m1 -> In kv m \/
         (fst kv = name /\ snd kv = mkLabel name true 1 1 (annotation_type data) /\ ~ In name (map fst m)))).
    { unfold m1, add_annotation_label. destruct (label_has m name) eqn:Hh.
      - apply label_has_spec in Hh. split; [split; assumption|].
        split; [intros x H; exact H|]. split; [exact Hh | intros kv H; left; exact H].
      - assert (Hni : ~ In name (map fst m)) by (rewrite <- label_has_spec; congruence).
        split; [split; [|apply label_set_nodup, Hn]|].
        { intros kv H. apply label_set_in in H as [-> | H]; [reflexivity | apply Hk, H]. }
        split; [intros x H; apply label_set_keys; right; exact H|].
        split; [apply label_set_keys; left; reflexivity|].
        intros kv H. apply label_set_in in H as [-> | H]; [right | left; exact H].
        split; [reflexivity | split; [reflexivity | exact Hni]]. }
    destruct Hm1 as (Hkm1 & Hmono1 & Hname & Hin1).
    destruct (IH m1 Hkm1) as (Hk' & Hin & Hmono & Hall). fold m' in Hk', Hin, Hmono, Hall.
    split; [exact Hk'|]. split.
    + intros kv H. destruct (Hin kv H) as [H1 | (a & Ha & Hl & Hnot)].
      * destruct (Hin1 kv H1) as [H2 | (Hf & Hs & Hnot)]; [left; exact H2|].
        right. exists data. rewrite Hf. split; [left; reflexivity|]. split; [exact Hs | exact Hnot].
      * right. exists a. split; [right; exact Ha|]. split; [exact Hl|].
        intros H2. apply Hnot, Hmono1, H2.
    + split; [intros x H; apply Hmono, Hmono1, H|].
      intros x [<- | H]; [apply Hmono, Hname | apply Hall, H].
Qed.

Lemma get_some_key : forall (s : store) name, get s name <> None -> In name (map fst s).
Proof.
  intros s nm. induction s as [|[k a] s IH]; intros H; cbn in H |- *; [congruence|].
  destruct (String.eqb_spec nm k) as [Heq | Hne]; [left; symmetry; exact Heq | right; apply IH, H].
Qed.

Lemma load_labels_facts : forall sortLabels landmarks segments figures s,
  (forall l, Permutation (sortLabels l) l) ->
  let backend := landmarks ++ segments ++ figures in
  let labels := loadFigureLabelsFromAnnotations sortLabels landmarks segments figures s in
  NoDup (map lname labels) /\
  (forall l, In l backend -> In (lname l) (map lname labels)) /\
  (forall name, get s name <> None -> In name (map lname labels)) /\
  (forall l, In l labels -> In l backend \/
     (exists a, In (lname l, a) s /\ l = mkLabel (lname l) true 1 1 (annotation_type a) /\
                ~ In (lname l) (map lname backend))).
Proof.
  intros sortLabels landmarks segments figures s Hperm backend labels.
  assert (H0 : keyed []) by (split; [intros kv [] | constructor]).
  destruct (backend_fold backend [] H0) as (Hk1 & Hin1 & _ & Hall1 & Hback1).
  set (m1 := fold_left (fun m l => label_set m (lname l) l) backend []) in *.
  destruct (store_fold s m1 Hk1) as ((Hl2 & Hn2) & Hin2 & Hmono2 & Hall2).
  set (m2 := fold_left add_annotation_label s m1) in *.
  assert (Hlab : labels = sortLabels (map snd m2)) by reflexivity.
  assert (Hkeys : map lname (map snd m2) = map fst m2).
  { rewrite map_map. apply map_ext_in. intros kv H. apply Hl2, H. }
  assert (Hp : Permutation (map lname labels) (map fst m2)).
  { rewrite Hlab, <- Hkeys. apply Permutation_map, Hperm. }
  split; [apply (Permutation_NoDup (Permutation_sym Hp)), Hn2|].
  split; [intros l H; apply (Permutation_in _ (Permutation_sym Hp)), Hmono2, Hall1, H|].
  split; [intros name H; apply (Permutation_in _ (Permutation_sym Hp)), Hall2, get_some_key, H|].
  intros l H. rewrite Hlab in H. apply (Permutation_in _ (Hperm _)) in H.
  apply in_map_iff in H as (kv & <- & Hkv).
  assert (Hname : lname (snd kv) = fst kv) by apply (Hl2 kv Hkv).
  destruct (Hin2 kv Hkv) as [H1 | (a & Ha & Hl & Hnot)].
  - destruct (Hin1 kv H1) as [[] | H2]. left; exact H2.
  - right. exists a. rewrite Hname. split; [exact Ha|]. split; [exact Hl|].
    intros H3. apply Hnot. apply in_map_iff in H3 as (l & Hl3 & Hl3in).
    rewrite <- Hl3. apply Hall1, Hl3in.
Qed.

(** Extra: the label list built by [loadFigureLabelsFromAnnotations] has
    one entry per name (given a sort that only reorders).  It holds every
    backend label's name and every name in the Store.  Each entry is a
    backend label, or, for a stored name that no backend label carries, a
    label made from the stored record (in use, counts 1, its type): for a
    name present in both, the backend label wins. *)
Lemma load_labels_unique_complete : forall sortLabels landmarks segments figures s,
  (forall l, Permutation (sortLabels l) l) ->
  let backend := landmarks ++ segments ++ figures in
  let labels := loadFigureLabelsFromAnnotations sortLabels landmarks segments figures s in
  NoDup (map lname labels) /\
  (forall l, In l backend -> In (lname l) (map lname labels)) /\
  (forall name, get s name <> None -> In name (map lname labels)) /\
  (forall l, In l labels -> In l backend \/
     (exists a, In (lname l, a) s /\ l = mkLabel (lname l) true 1 1 (annotation_type a) /\
                ~ In (lname l) (map lname backend))).
Proof.
  intros sortLabels landmarks segments figures s Hperm.
  apply load_labels_facts, Hperm.
Qed.

Lemma load_labels_unique_complete_witness :
  let lm := [mkLabel "nose" false 0 3 "landmark"] in
  let s := [("nose"%string, Landmark "ok" None "t"); ("eye"%string, Polygon "ok" [] "t")] in
  NoDup (map lname (loadFigureLabelsFromAnnotations (fun l => l) lm [] [] s)) /\
  (forall l, In l (lm ++ [] ++ []) -> In (lname l) (map lname (loadFigureLabelsFromAnnotations (fun l => l) lm [] [] s))) /\
  (forall name, get s name <> None -> In name (map lname (loadFigureLabelsFromAnnotations (fun l => l) lm [] [] s))) /\
  (forall l, In l (loadFigureLabelsFromAnnotations (fun l => l) lm [] [] s) -> In l (lm ++ [] ++ []) \/
     (exists a, In (lname l, a) s /\ l = mkLabel (lname l) true 1 1 (annotation_type a) /\
                ~ In (lname l) (map lname (lm ++ [] ++ [])))).
Proof.
  intros lm s. apply (load_labels_unique_complete (fun l => l) lm [] [] s).
  intros l. apply Permutation_refl.
Defined.

Lemma vis_get_set_same : forall t k b, vis_get (vis_set t k b) k = Some b.
Proof.
  induction t as [|[k' b'] t IH]; intros k b; cbn.
  - rewrite String.eqb_refl. reflexivity.
  - destruct (String.eqb_spec k k') as [-> | Hne]; cbn.
    + rewrite String.eqb_refl. reflexivity.
    + destruct (String.eqb_spec k k'); [contradiction | apply IH].
Qed.

Lemma init_toggles_get : forall labels t x,
  (In x (map lname labels) -> vis_get (initializeVisibilityToggles labels t) x = Some true) /\
  (~ In x (map lname labels) -> vis_get (initializeVisibilityToggles labels t) x = vis_get t x).
Proof.
  unfold initializeVisibilityToggles.
  induction labels as [|l labels IH]; intros t x; cbn [fold_left map In].
  - split; [intros [] | intros _; reflexivity].
  - destruct (IH (vis_set t (lname l) true) x) as [Hin Hout]. split.
    + intros H. destruct (in_dec String.string_dec x (map lname labels)) as [H1 | H1]; [apply Hin, H1|].
      rewrite Hout by exact H1. destruct H as [<- | H]; [apply vis_get_set_same | contradiction].
    + intros H. rewrite Hout by tauto. apply vis_get_set_other. intros ->. apply H. left; reflexivity.
Qed.

(** Extra: after start-up ([loadFigureLabelsFromAnnotations], then
    [initializeVisibilityToggles]), every stored annotation and every
    backend label is marked visible, whatever the toggles held before;
    labels absent from both keep their previous toggle. *)
Lemma startup_all_visible : forall sortLabels landmarks segments figures s t,
  (forall l, Permutation (sortLabels l) l) ->
  let t' := initializeVisibilityToggles
              (loadFigureLabelsFromAnnotations sortLabels landmarks segments figures s) t in
  (forall name, get s name <> None -> vis_get t' name = Some true /\ hidden t' name = false) /\
  (forall l, In l (landmarks ++ segments ++ figures) -> vis_get t' (lname l) = Some true) /\
  (forall name, get s name = None -> ~ In name (map lname (landmarks ++ segments ++ figures)) ->
     vis_get t' name = vis_get t name).
Proof.
  intros sortLabels landmarks segments figures s t Hperm t'.
  destruct (load_labels_facts sortLabels landmarks segments figures s Hperm)
    as (_ & Hback & Hstore & Hshape).
  split.
  - intros name H. assert (Hv : vis_get t' name = Some true) by (apply init_toggles_get, Hstore, H).
    split; [exact Hv | unfold hidden; rewrite Hv; reflexivity].
  - split; [intros l H; apply init_toggles_get, Hback, H|].
    intros name Hs Hb. apply init_toggles_get. intros H.
    apply in_map_iff in H as (l & <- & Hl).
    destruct (Hshape l Hl) as [H1 | (a & Ha & _ & Hnot)].
    + apply Hb, in_map, H1.
    + assert (Hk : In (lname l) (map fst s)) by (apply in_map_iff; exists (lname l, a); auto).
      clear -Hk Hs. induction s as [|[k b] s IH]; [destruct Hk|].
      cbn in Hk, Hs. destruct (String.eqb_spec (lname l) k) as [Heq | Hne]; [discriminate|].
      destruct Hk as [Hk | Hk]; [congruence | apply IH; assumption].
Qed.

Lemma startup_all_visible_witness :
  let t' := initializeVisibilityToggles
              (loadFigureLabelsFromAnnotations (fun l => l) [mkLabel "nose" false 0 3 "landmark"] [] []
                 [("eye"%string, Landmark "ok" None "t")]) [("eye"%string, false)] in
  (forall name, get [("eye"%string, Landmark "ok" None "t")] name <> None ->
     vis_get t' name = Some true /\ hidden t' name = false) /\
  (forall l, In l ([mkLabel "nose" false 0 3 "landmark"] ++ [] ++ []) -> vis_get t' (lname l) = Some true) /\
  (forall name, get [("eye"%string, Landmark "ok" None "t")] name = None ->
     ~ In name (map lname ([mkLabel "nose" false 0 3 "landmark"] ++ [] ++ [])) ->
     vis_get t' name = vis_get [("eye"%string, false)] name).
Proof.
  apply startup_all_visible. intros l. apply Permutation_refl.
Defined.

(** Extra: [toggleVisibility] hides a label that is visible and shows one
    that is hidden, but the first toggle of a label that was never set
    makes it explicitly visible, so two toggles of such a label hide it.
    Other labels are not affected. *)
Lemma toggleVisibility_flips : forall t name,
  (vis_get t name <> None -> hidden (toggleVisibility t name) name = negb (hidden t name)) /\
  (vis_get t name = None ->
     vis_get (toggleVisibility t name) name = Some true /\
     hidden (toggleVisibility (toggleVisibility t name) name) name = true) /\
  (forall m, m <> name -> vis_get (toggleVisibility t name) m = vis_get t m).
Proof.
  intros t name. unfold toggleVisibility, hidden. split; [|split].
  - intros H. rewrite vis_get_set_same.
    destruct (vis_get t name) as [[|]|]; [reflexivity | reflexivity | congruence].
  - intros H. rewrite H, vis_get_set_same. split; [reflexivity|].
    rewrite vis_get_set_same. reflexivity.
  - intros m Hm. apply vis_get_set_other, Hm.
Qed.

(* ================================================================== *)
(** * Properties of the label rows *)

Lemma set_keys : forall s k a x, In x (map fst (set s k a)) <-> x = k \/ In x (map fst s).
Proof.
  induction s as [|[k' a'] s IH]; intros k a x; cbn [set map fst].
  - cbn. split; [intros [-> | []]; left; reflexivity | intros [-> | []]; left; reflexivity].
  - destruct (String.eqb_spec k k') as [-> | Hne]; cbn [map fst In].
    + split; [intros H; right; exact H | intros [-> | H]; [left; reflexivity | exact H]].
    + rewrite IH. tauto.
Qed.

Lemma set_nodup : forall s k a, NoDup (map fst s) -> NoDup (map fst (set s k a)).
Proof.
  induction s as [|[k' a'] s IH]; intros k a Hn; cbn [set].
  - constructor; [intros [] | constructor].
  - inversion Hn as [|? ? Hk Hm]; subst.
    destruct (String.eqb_spec k k') as [-> | Hne]; cbn [map fst].
    + constructor; assumption.
    + constructor; [|apply IH, Hm].
      rewrite set_keys. intros [-> | H]; [congruence | contradiction].
Qed.

Lemma render_absent : forall v t s i name, ~ In name (map fst s) ->
  filter (name_is name) (render_from v t i s) = [].
Proof.
  intros v t s; induction s as [|[n data] s IH]; intros i name H; [reflexivity|].
  rewrite render_skip_other by (intros ->; apply H; left; reflexivity).
  apply IH. intros H1. apply H. right. exact H1.
Qed.

Lemma render_unique_unplaced : forall v t s i name st ts,
  NoDup (map fst s) -> get s name = Some (Landmark st None ts) ->
  filter (name_is name) (render_from v t i s) = [].
Proof.
  intros v t s; induction s as [|[n data] s IH]; intros i name st ts Hn Hg; [reflexivity|].
  inversion Hn as [|? ? Hk Hm]; subst. cbn [get] in Hg.
  destruct (String.eqb_spec name n) as [-> | Hne].
  - injection Hg as Hd. subst data. cbn [render_from].
    destruct (hidden t n); apply render_absent, Hk.
  - rewrite render_skip_other by (intros ->; contradiction). apply (IH _ _ st ts Hm Hg).
Qed.

(** Extra: after [markOccluded] succeeds, the label's row shows the
    "Occluded" status badge and the "Point" type badge and still offers
    the Occluded button; if names in the Store are unique, the render pass
    then draws nothing for the label.  After [deleteAnnotation] succeeds,
    the row shows no badge and offers the Occluded button again. *)
Lemma label_row_after_occluded_and_delete : forall w name now,
  let wo := run (Reply "success") (markOccluded w name now) in
  statusBadge (get (store_of wo) name) = Some "Occluded"%string /\
  typeBadge (get (store_of wo) name) = Some "Point"%string /\
  occludedButton (get (store_of wo) name) = true /\
  (NoDup (map fst (store_of w)) -> forall v t, colors_of name (renderAnnotations v t (store_of wo)) = []) /\
  (let wd := run (Reply "success") (deleteAnnotation w true name) in
   statusBadge (get (store_of wd) name) = None /\ typeBadge (get (store_of wd) name) = None /\
   occludedButton (get (store_of wd) name) = true).
Proof.
  intros w name now wo.
  assert (Hs : store_of wo = set (store_of w) name (Landmark "occluded/missing" None now)).
  { unfold wo, markOccluded. cbn [run]. rewrite on_reply_success.
    autorewrite with session. reflexivity. }
  rewrite Hs, get_set_same.
  split; [reflexivity|]. split; [reflexivity|]. split; [reflexivity|].
  split.
  - intros Hn v t. unfold colors_of, renderAnnotations.
    rewrite (render_unique_unplaced v t _ 0 name "occluded/missing" now); [reflexivity | |].
    + apply set_nodup, Hn.
    + apply get_set_same.
  - intros wd. destruct (delete_success_world w name) as (_ & Hd & _). fold wd in Hd.
    rewrite Hd, get_remove_same. split; [reflexivity | split; reflexivity].
Qed.

(* ================================================================== *)
(** * Properties of figure drags and resizes *)

(** Extra: in panning mode, a press on the body of an interactive line
    figure followed by a pointer move (with no resize and no endpoint drag
    in progress) translates the line: the centre goes to the pointer plus
    the press offset, taken to image space, both endpoints are shifted
    from where they were at the press by the same offset as the centre,
    and the size and shape are kept.  Other records are untouched. *)
Lemma line_drag_shifts_endpoints : forall w name mouse center f e m,
  name <> ""%string -> isAnnotationMode w = false -> figureResizing (drag w) = false ->
  linePointDragging (drag w) = false ->
  get (store_of w) name = Some (Figure f) -> fshape f = Line -> fends f = Some e ->
  exists w1, lineElementMouseDown w true name mouse center = Some w1 /\
  (let nc := displayToImageCoords (wview w)
              (mkPoint (px m + (px center - px mouse)) (py m + (py center - py mouse))) in
  get (store_of (handleMouseMove w1 m)) name =
    Some (Figure (mkFigure (fstatus f) (px nc) (py nc) Line (fsize f)
      (Some (shift_ends e (px nc - fx f) (py nc - fy f))) (ftimestamp f)))) /\
  (forall k, k <> name -> get (store_of (handleMouseMove w1 m)) k = get (store_of w) k).
Proof.
  intros w name mouse center f e m _ Ha Hr Hl Hg Hs He.
  set (D := mkDrag (Some name) true (figureResizing (drag w)) (resizeHandle (drag w))
              (px mouse) (py mouse) (fx f) (fy f) (figureOriginalSize (drag w))
              (px center - px mouse) (py center - py mouse) e
              (linePointDragging (drag w)) (linePointDraggedFigure (drag w)) (linePointDraggedType (drag w))).
  assert (Hd : lineElementMouseDown w true name mouse center = Some (set_drag w D)).
  { unfold lineElementMouseDown, handleFigureMouseDown. rewrite Ha, Hg.
    unfold handleLineMouseDown. cbn [isAnnotationMode set_drag negb].
    rewrite Ha. cbv zeta. rewrite store_of_set_drag, Hg, He. reflexivity. }
  exists (set_drag w D). split; [exact Hd|]. cbv zeta.
  set (nc := displayToImageCoords (wview w) (mkPoint (px m + (px center - px mouse)) (py m + (py center - py mouse)))).
  set (f' := mkFigure (fstatus f) (px nc) (py nc) Line (fsize f)
               (Some (shift_ends e (px nc - fx f) (py nc - fy f))) (ftimestamp f)).
  assert (Hm : handleMouseMove (set_drag w D) m = set_store (set_drag w D) (set (store_of w) name (Figure f'))).
  { unfold handleMouseMove, move_drag. cbn [drag set_drag D figureDragging selectedFigure].
    rewrite store_of_set_drag, Hg, Hs. cbv zeta.
    unfold move_resize, move_line_point. cbv zeta.
    cbn [drag set_store set_doc set_drag D figureResizing linePointDragging].
    rewrite Hr.
    assert (Hl' : forall s, linePointDragging (drag (set_store (set_drag w D) s)) = false) by (intros; exact Hl).
    rewrite Hl'. reflexivity. }
  rewrite Hm, store_of_set_store.
  split; [apply get_set_same|].
  intros k Hk. apply get_set_other, Hk.
Qed.

Lemma line_drag_shifts_endpoints_witness :
  let w := session [("L"%string, lineF)] false TFigure (Some "L"%string) Line in
  exists w1, lineElementMouseDown w true "L" (mkPoint 5 0) (mkPoint 5 0) = Some w1 /\
  (let nc := displayToImageCoords (wview w) (mkPoint (7 + (5 - 5)) (3 + (0 - 0))) in
  get (store_of (handleMouseMove w1 (mkPoint 7 3))) "L" =
    Some (Figure (mkFigure "ok" (px nc) (py nc) Line 10
      (Some (shift_ends (mkEnds 0 0 10 0) (px nc - 5) (py nc - 0))) "t0"))) /\
  (forall k, k <> "L"%string -> get (store_of (handleMouseMove w1 (mkPoint 7 3))) k = get (store_of w) k).
Proof.
  intros w.
  apply (line_drag_shifts_endpoints w "L" (mkPoint 5 0) (mkPoint 5 0)
           (mkFigure "ok" 5 0 Line 10 (Some (mkEnds 0 0 10 0)) "t0") (mkEnds 0 0 10 0) (mkPoint 7 3));
    [discriminate | reflexivity ..].
Defined.

(** Extra: a pointer move during a resize (and no drag) never makes the
    figure smaller than 10: the stored size is at least 10, and the centre,
    the shape and the endpoints are kept.  With the east handle the size
    grows by the horizontal pointer travel divided by the zoom.  Other
    records are untouched. *)
Lemma resize_move_min_size : forall w mouse name h f,
  name <> ""%string -> h <> ""%string -> figureDragging (drag w) = false -> figureResizing (drag w) = true ->
  selectedFigure (drag w) = Some name -> resizeHandle (drag w) = Some h ->
  linePointDragging (drag w) = false -> get (store_of w) name = Some (Figure f) ->
  exists f', get (store_of (handleMouseMove w mouse)) name = Some (Figure f') /\
    10 <= fsize f' /\ fx f' = fx f /\ fy f' = fy f /\ fshape f' = fshape f /\ fends f' = fends f /\
    (h = "e"%string -> fsize f' = Rmax 10 (figureOriginalSize (drag w) +
                                     (px mouse - figureDragStartX (drag w)) / currentZoom (wview w))) /\
    (forall k, k <> name -> get (store_of (handleMouseMove w mouse)) k = get (store_of w) k).
Proof.
  intros w mouse name h f _ _ Hd Hr Hs Hh Hl Hg.
  set (c4 := let z := currentZoom (wview w) in
             let deltaX := px mouse - figureDragStartX (drag w) in
             let deltaY := py mouse - figureDragStartY (drag w) in
             let c1 := if includes "e"%char h then deltaX / z else 0 in
             let c2 := if includes "w"%char h then c1 - deltaX / z else c1 in
             let c3 := if includes "s"%char h then c2 + deltaY / z else c2 in
             if includes "n"%char h then c3 - deltaY / z else c3).
  assert (Hm : handleMouseMove w mouse =
    set_store w (set (store_of w) name (Figure (with_size f (Rmax 10 (figureOriginalSize (drag w) + c4)))))).
  { unfold handleMouseMove. rewrite move_drag_idle by exact Hd.
    unfold move_resize. rewrite Hr, Hs, Hh. cbv zeta. unfold updateFigureSize. rewrite Hg.
    unfold move_line_point. cbv zeta.
    assert (Hl' : forall s, linePointDragging (drag (set_store w s)) = false) by (intros; exact Hl).
    rewrite Hl'. reflexivity. }
  rewrite Hm, store_of_set_store.
  eexists; split; [apply get_set_same|].
  split; [cbn [fsize with_size]; apply Rmax_l|].
  split; [reflexivity|]. split; [reflexivity|]. split; [reflexivity|]. split; [reflexivity|].
  split; [intros ->; reflexivity|].
  intros k Hk. apply get_set_other, Hk.
Qed.

Lemma resize_move_min_size_witness :
  let w := set_drag drag_session
             (mkDrag (Some "F"%string) false true (Some "e"%string) 20 10 0 0 20 0 0 (mkEnds 0 0 0 0)
                false None None) in
  exists f', get (store_of (handleMouseMove w (mkPoint 0 10))) "F" = Some (Figure f') /\
    10 <= fsize f' /\ fx f' = 10 /\ fy f' = 10 /\ fshape f' = Circle /\ fends f' = None /\
    ("e"%string = "e"%string -> fsize f' = Rmax 10 (20 + (0 - 20) / 1)) /\
    (forall k, k <> "F"%string -> get (store_of (handleMouseMove w (mkPoint 0 10))) k = get (store_of w) k).
Proof.
  intros w.
  apply (resize_move_min_size w (mkPoint 0 10) "F" "e" (mkFigure "ok" 10 10 Circle 20 None "t0"));
    [discriminate | discriminate | reflexivity ..].
Defined.

(** Extra: [deleteSelectedFigure] with a figure selected sends one removal
    request for it.  On success the record is gone, every other record is
    unchanged, no figure is selected any more, and on a consistent history
    [undo] brings the deleted record back.  On a failure the Store and the
    selection are unchanged. *)
Lemma deleteSelectedFigure_effect : forall w name r,
  selectedFigure (drag w) = Some name -> name <> ""%string ->
  requests r (deleteSelectedFigure w) = [mkReq "figures" name BRemove] /\
  (let w' := run (Reply "success") (deleteSelectedFigure w) in
   get (store_of w') name = None /\
   (forall m, m <> name -> get (store_of w') m = get (store_of w) m) /\
   selectedFigure (drag w') = None /\
   (hist_inv (doc w) -> exists h, undo (doc w') = Some h /\ annotations h = store_of w)) /\
  (failed r -> store_of (run r (deleteSelectedFigure w)) = store_of w /\
               selectedFigure (drag (run r (deleteSelectedFigure w))) = Some name).
Proof.
  intros w name r Hs _. unfold deleteSelectedFigure. rewrite Hs.
  split; [reflexivity|]. split.
  - cbn [run]. rewrite on_reply_success. cbv zeta.
    rewrite store_of_showMessage, store_of_set_drag, store_of_save, store_of_set_store.
    split; [apply get_remove_same|].
    split; [intros m Hm; apply get_remove_other, Hm|].
    split; [reflexivity|].
    intros Hh. destruct (save_undo_redo (doc w) (remove (store_of w) name) Hh) as (h3 & Hu & Ha & _).
    exists h3. split; [exact Hu | exact Ha].
  - intros Hf. cbn [run]. split; [apply on_reply_failed_store, Hf|].
    destruct Hf as [-> | (st & -> & Hst)]; [exact Hs|].
    cbn [on_reply]. unfold is_success. destruct (String.eqb_spec st "success"); [contradiction | exact Hs].
Qed.

Lemma deleteSelectedFigure_effect_witness :
  requests (Reply "error") (deleteSelectedFigure dragging_session) = [mkReq "figures" "F" BRemove] /\
  (let w' := run (Reply "success") (deleteSelectedFigure dragging_session) in
   get (store_of w') "F" = None /\
   (forall m, m <> "F"%string -> get (store_of w') m = get (store_of dragging_session) m) /\
   selectedFigure (drag w') = None /\
   (hist_inv (doc dragging_session) -> exists h, undo (doc w') = Some h /\
      annotations h = store_of dragging_session)) /\
  (failed (Reply "error") -> store_of (run (Reply "error") (deleteSelectedFigure dragging_session)) =
     store_of dragging_session /\
   selectedFigure (drag (run (Reply "error") (deleteSelectedFigure dragging_session))) = Some "F"%string).
Proof.
  apply deleteSelectedFigure_effect; [reflexivity | discriminate].
Defined.
